(** * The data-access layer of the safety application ([src/lib/api.ts])
    and its connectivity monitor ([src/App.tsx])

    A shallow embedding of the axios instance [api], its two interceptors and
    the thirteen domain operations with their fallback values, followed by
    the properties of the specification that concern them.

    Conventions of the embedding.
    - JavaScript values are the inductive [value]; an object is a finite map
      from property names to values (property order is not observable by any
      statement below).
    - JavaScript numbers are given by their rational value.  The only
      arithmetic the source performs is on integer millisecond counts, far
      below 2^53, where binary64 is exact, and the product
      [Math.random() * scores.length], which is rounded to binary64 as the
      language does ([Number_mul]).
    - Strings are [string]; the only searched-for text is ASCII.
    - Effects (the storage slot, navigation, the network, the clock, the
      random source) are threaded through the monad [M]: the environment
      [Env] holds what the outside answers, the [World] what the program has
      done so far. *)

From Stdlib Require Import ZArith QArith Qround Lia Lqa.
From stdpp Require Import base gmap strings list fin_maps pretty.

Set Warnings "-register-all".

(** ** JavaScript values *)

Inductive value : Type :=
  | VUndefined
  | VNull
  | VBool (b : bool)
  | VNum (q : Q)
  | VStr (s : string)
  | VArr (l : list value)
  | VObj (m : gmap string value).

Definition VInt (z : Z) : value := VNum (inject_Z z).

(** [String(n)] for an integral number below 1e21: its decimal digits. *)
Definition Number_toString (z : Z) : string := pretty z.

(** The characters of a string, as one-character strings. *)
Fixpoint chars (s : string) : list value :=
  match s with
  | EmptyString => []
  | String c s' => VStr (String c EmptyString) :: chars s'
  end.

Definition indexed (l : list value) : gmap string value :=
  list_to_map (imap (λ i v, (pretty i, v)) l).

(** The own enumerable properties that an object spread [...v] copies. *)
Definition own_enumerable (v : value) : gmap string value :=
  match v with
  | VObj m => m
  | VArr l => indexed l
  | VStr s => indexed (chars s)
  | VUndefined | VNull | VBool _ | VNum _ => ∅
  end.

(** Object literals: the property definitions are processed left to right,
    a later definition of a key replacing an earlier one. *)
Inductive prop_def : Type :=
  | Field (k : string) (v : value)
  | Spread (v : value).

Definition define (m : gmap string value) (d : prop_def) : gmap string value :=
  match d with
  | Field k v => <[k := v]> m
  | Spread v => own_enumerable v ∪ m
  end.

Definition object (defs : list prop_def) : value := VObj (foldl define ∅ defs).

Notation "k ::= v" := (Field k v) (at level 60, no associativity).

(** Property read [v.k]: [undefined] when absent. *)
Definition get (v : value) (k : string) : value :=
  match v with
  | VObj m => default VUndefined (m !! k)
  | _ => VUndefined
  end.

(** Array read [a[i]] at a numeric index: [undefined] out of range. *)
Definition array_get (a : list value) (i : Z) : value :=
  if (i <? 0)%Z then VUndefined else default VUndefined (a !! Z.to_nat i).

(** [s.includes(t)]: [t] occurs in [s] at some position. *)
Fixpoint includes (s t : string) : bool :=
  String.prefix t s ||
  match s with
  | EmptyString => false
  | String _ s' => includes s' t
  end.

(** ** Binary64 arithmetic

    A finite binary64 number is a rational [m / 2^k]; its product with
    another is the exact product rounded to the nearest binary64, ties to
    the even mantissa. *)

(** Numerator and binary exponent of the denominator of [q] in lowest
    terms: [q = m / 2^k] when the denominator is a power of two. *)
Definition dyadic (q : Q) : Z * Z :=
  (Qnum (Qred q), Z.log2 (Zpos (Qden (Qred q)))).

(** [q] is a binary64 number of magnitude below 2^53: in lowest terms it is
    [m / 2^k] with [|m| < 2^53] and [k <= 1074]. *)
Definition binary64_below_2_53 (q : Q) : bool :=
  (Zpos (Qden (Qred q)) =? 2 ^ (dyadic q).2)%Z
  && (Z.abs (dyadic q).1 <? 2 ^ 53)%Z
  && ((dyadic q).2 <=? 1074)%Z.

(** [p / 2^s] rounded to the nearest integer, ties to even, for [p >= 0]. *)
Definition round_shift (p s : Z) : Z :=
  if (s <=? 0)%Z then p
  else
    let q := (p / 2 ^ s)%Z in
    let rem := (p mod 2 ^ s)%Z in
    let half := (2 ^ (s - 1))%Z in
    if (rem <? half)%Z then q
    else if (half <? rem)%Z then (q + 1)%Z
    else if Z.even q then q else (q + 1)%Z.

(** [a * b] on two binary64 numbers whose product does not overflow: the
    exact product [p / 2^k] keeps 53 significant bits and no bit below
    2^-1074, so that its last [s] bits are rounded away. *)
Definition Number_mul (a b : Q) : Q :=
  let p := ((dyadic a).1 * (dyadic b).1)%Z in
  let k := ((dyadic a).2 + (dyadic b).2)%Z in
  let s := Z.max 0 (Z.max (Z.log2 (Z.abs p) - 52) (k - 1074)) in
  (Z.sgn p * round_shift (Z.abs p) s * 2 ^ s) # Z.to_pos (2 ^ k).

(** ** Requests, responses and errors *)

(** A [FormData] body is its list of entries. *)
Definition FormData : Type := list (string * string).

Inductive Body : Type :=
  | JsonBody (v : value)
  | FormBody (f : FormData).

Record AxiosRequestConfig : Type := mkConfig {
  method : string;
  url : string;
  baseURL : string;
  timeout : Z;
  headers : gmap string string;
  data : option Body
}.

Record AxiosResponse : Type := mkResponse {
  status : Z;
  response_data : value
}.

Record AxiosError : Type := mkError {
  code : string;
  response : option AxiosResponse
}.

(** What the transport observes for one request. *)
Inductive Transmission : Type :=
  | NetworkError
  | TimeoutExceeded
  | Received (r : AxiosResponse).

(** axios' default [validateStatus]. *)
Definition validateStatus (s : Z) : bool := (200 <=? s)%Z && (s <? 300)%Z.

(** axios' [settle]: a received response fulfils the promise when its status
    is 2xx and rejects it, carrying the response, otherwise. *)
Definition settle (t : Transmission) : AxiosResponse + AxiosError :=
  match t with
  | NetworkError => inr (mkError "ERR_NETWORK" None)
  | TimeoutExceeded => inr (mkError "ECONNABORTED" None)
  | Received r =>
      if validateStatus (status r) then inl r
      else inr (mkError (if (status r <? 500)%Z then "ERR_BAD_REQUEST"
                         else "ERR_BAD_RESPONSE") (Some r))
  end.

(** ** The environment and the state of the client *)

Record Env : Type := mkEnv {
  (** [process.env.NEXT_PUBLIC_API_BASE_URL] *)
  NEXT_PUBLIC_API_BASE_URL : option string;
  (** how the network answers a request *)
  network : AxiosRequestConfig → Transmission;
  (** the successive readings of the system clock, in milliseconds *)
  clock : nat → Z;
  (** the successive results of [Math.random()] *)
  entropy : nat → Q
}.

Record World : Type := mkWorld {
  (** [window.localStorage] *)
  storage : gmap string string;
  (** the assignments made to [window.location.href], oldest first *)
  navigations : list string;
  (** the requests handed to the transport, oldest first *)
  sent : list AxiosRequestConfig;
  (** how many times the clock has been read *)
  clock_reads : nat;
  (** how many random numbers have been drawn *)
  random_draws : nat
}.

(** ** The monad of effects *)

Inductive Completion (A : Type) : Type :=
  | Normal (a : A)
  | Throw (e : AxiosError).
Arguments Normal {A} a.
Arguments Throw {A} e.

Definition M (A : Type) : Type := Env → World → Completion A * World.

#[export] Instance M_ret : MRet M := λ A a _ w, (Normal a, w).

#[export] Instance M_bind : MBind M := λ A B f m env w,
  match m env w with
  | (Normal a, w') => f a env w'
  | (Throw e, w') => (Throw e, w')
  end.

(** [Promise.reject(e)] / [throw e]. *)
Definition reject {A} (e : AxiosError) : M A := λ _ w, (Throw e, w).

(** [p.then(onFulfilled, onRejected)]. *)
Definition then_ {A B} (p : M A) (onFulfilled : A → M B)
    (onRejected : AxiosError → M B) : M B := λ env w,
  match p env w with
  | (Normal a, w') => onFulfilled a env w'
  | (Throw e, w') => onRejected e env w'
  end.

(** [try { body } catch (error) { handler }]. *)
Definition try_catch {A} (body : M A) (handler : AxiosError → M A) : M A :=
  then_ body mret handler.

Definition ask : M Env := λ env w, (Normal env, w).
Definition read : M World := λ _ w, (Normal w, w).
Definition update (f : World → World) : M unit := λ _ w, (Normal tt, f w).

(** ** Browser globals *)

Module localStorage.
Definition getItem (k : string) : M (option string) :=
  w ← read; mret (storage w !! k).

Definition removeItem (k : string) : M unit :=
  update (λ w, mkWorld (delete k (storage w)) (navigations w) (sent w)
                       (clock_reads w) (random_draws w)).
End localStorage.

Module location.
(** [window.location.href = target] *)
Definition set_href (target : string) : M unit :=
  update (λ w, mkWorld (storage w) (navigations w ++ [target]) (sent w)
                       (clock_reads w) (random_draws w)).
End location.

Module Date.
Definition now : M Z :=
  env ← ask; w ← read;
  update (λ w, mkWorld (storage w) (navigations w) (sent w)
                       (S (clock_reads w)) (random_draws w));;
  mret (clock env (clock_reads w)).
End Date.

Module Math.
Definition random : M Q :=
  env ← ask; w ← read;
  update (λ w, mkWorld (storage w) (navigations w) (sent w)
                       (clock_reads w) (S (random_draws w)));;
  mret (entropy env (random_draws w)).

Definition floor (q : Q) : Z := Qfloor q.
End Math.

(** ** The axios instance [api] *)

(** [process.env.NEXT_PUBLIC_API_BASE_URL || 'http://localhost:3001'] *)
Definition API_BASE_URL (env : Env) : string :=
  match NEXT_PUBLIC_API_BASE_URL env with
  | Some s => if String.eqb s "" then "http://localhost:3001" else s
  | None => "http://localhost:3001"
  end.

Module api.
(** The defaults given to [axios.create]. *)
Definition defaults (env : Env) : AxiosRequestConfig :=
  {| method := "get"; url := "";
     baseURL := API_BASE_URL env +:+ "/api/v1";
     timeout := 10000;
     headers := {[ "Content-Type" := "application/json" ]};
     data := None |}.

(** The transport: the request is handed to the network, whose answer is
    settled into a fulfilled or a rejected promise. *)
Definition dispatchRequest (config : AxiosRequestConfig) : M AxiosResponse :=
  env ← ask;
  update (λ w, mkWorld (storage w) (navigations w) (sent w ++ [config])
                       (clock_reads w) (random_draws w));;
  match settle (network env config) with
  | inl r => mret r
  | inr e => reject e
  end.

Module interceptors.
Module request.
Definition onFulfilled (config : AxiosRequestConfig)
    : M AxiosRequestConfig :=
  token ← localStorage.getItem "auth-token";
  match token with
  | Some t =>
      if String.eqb t "" then mret config
      else mret {| method := method config; url := url config;
                   baseURL := baseURL config; timeout := timeout config;
                   headers := <["Authorization" := "Bearer " +:+ t]>
                                (headers config);
                   data := data config |}
  | None => mret config
  end.

Definition onRejected {A} (error : AxiosError) : M A := reject error.
End request.

Module response.
Definition onFulfilled (response : AxiosResponse) : M AxiosResponse :=
  mret response.

(** [error.response?.status === 401] *)
Definition unauthorized (error : AxiosError) : bool :=
  match response error with
  | Some r => (status r =? 401)%Z
  | None => false
  end.

Definition onRejected {A} (error : AxiosError) : M A :=
  (if unauthorized error then
     localStorage.removeItem "auth-token";;
     location.set_href "/auth/login"
   else mret tt);;
  reject error.
End response.
End interceptors.

(** [api.request]: the promise chain
    request interceptor, transport, response interceptor. *)
Definition request (config : AxiosRequestConfig) : M AxiosResponse :=
  then_
    (then_
       (then_ (mret config)
              interceptors.request.onFulfilled
              interceptors.request.onRejected)
       dispatchRequest
       reject)
    interceptors.response.onFulfilled
    interceptors.response.onRejected.

(** The request-specific configuration laid over the defaults. *)
Definition mergeConfig (env : Env) (m u : string) (d : option Body)
    (h : gmap string string) : AxiosRequestConfig :=
  {| method := m; url := u;
     baseURL := baseURL (defaults env);
     timeout := timeout (defaults env);
     headers := h ∪ headers (defaults env);
     data := d |}.

Definition get (u : string) : M AxiosResponse :=
  env ← ask; request (mergeConfig env "get" u None ∅).

Definition post (u : string) (d : option Body) (h : gmap string string)
    : M AxiosResponse :=
  env ← ask; request (mergeConfig env "post" u d h).

Definition put (u : string) (d : option Body) : M AxiosResponse :=
  env ← ask; request (mergeConfig env "put" u d ∅).
End api.

(** ** The domain operations

    Each operation is [try { response = await api...; return response.data }
    catch (error) { return fallback }].  The awaited call is named
    [.._call] so that statements can refer to its outcome. *)

Module authAPI.
Definition login_call (email password : string) : M AxiosResponse :=
  api.post "/auth/login"
    (Some (JsonBody (object ["email" ::= VStr email;
                             "password" ::= VStr password]))) ∅.

Definition login (email password : string) : M value :=
  try_catch
    (response ← login_call email password;
     mret (response_data response))
    (λ error,
       now ← Date.now;
       mret (object [
         "user" ::= object [
           "id" ::= VStr "1";
           "email" ::= VStr email;
           "firstName" ::= VStr "Demo";
           "lastName" ::= VStr "User";
           "phoneNumber" ::= VStr "+91 9876543210";
           "role" ::= VStr (if includes email "authority"
                            then "authority" else "tourist") ];
         "token" ::= VStr ("mock-jwt-token-" +:+ Number_toString now) ])).

Definition register_call (userData : value) : M AxiosResponse :=
  api.post "/auth/register" (Some (JsonBody userData)) ∅.

Definition register (userData : value) : M value :=
  try_catch
    (response ← register_call userData;
     mret (response_data response))
    (λ error,
       now1 ← Date.now;
       now2 ← Date.now;
       mret (object [
         "user" ::= object [
           "id" ::= VStr ("new-user-" +:+ Number_toString now1);
           Spread userData;
           "role" ::= VStr "tourist" ];
         "token" ::= VStr ("mock-jwt-token-" +:+ Number_toString now2) ])).

Definition verifyOTP_call (email otp : string) : M AxiosResponse :=
  api.post "/auth/verify-otp"
    (Some (JsonBody (object ["email" ::= VStr email; "otp" ::= VStr otp]))) ∅.

Definition verifyOTP (email otp : string) : M value :=
  try_catch
    (response ← verifyOTP_call email otp;
     mret (response_data response))
    (λ error, mret (object ["success" ::= VBool true])).
End authAPI.

Module userAPI.
Definition getProfile_call : M AxiosResponse := api.get "/user/profile".

Definition getProfile : M value :=
  try_catch
    (response ← getProfile_call;
     mret (response_data response))
    (λ error,
       mret (object [
         "id" ::= VStr "1";
         "email" ::= VStr "demo@example.com";
         "firstName" ::= VStr "Demo";
         "lastName" ::= VStr "User";
         "isKYCVerified" ::= VBool true;
         "safetyScore" ::= VInt 85 ])).

Definition updateProfile_call (profileData : value) : M AxiosResponse :=
  api.put "/user/profile" (Some (JsonBody profileData)).

Definition updateProfile (profileData : value) : M value :=
  try_catch
    (response ← updateProfile_call profileData;
     mret (response_data response))
    (λ error,
       mret (object ["success" ::= VBool true; "data" ::= profileData])).

Definition uploadKYC_call (formData : FormData) : M AxiosResponse :=
  api.post "/user/kyc" (Some (FormBody formData))
    {[ "Content-Type" := "multipart/form-data" ]}.

Definition uploadKYC (formData : FormData) : M value :=
  try_catch
    (response ← uploadKYC_call formData;
     mret (response_data response))
    (λ error,
       mret (object [
         "success" ::= VBool true;
         "message" ::= VStr "KYC documents uploaded successfully" ])).
End userAPI.

Module locationAPI.
Definition updateLocation_call (location : value) : M AxiosResponse :=
  api.post "/location/update" (Some (JsonBody location)) ∅.

Definition updateLocation (location : value) : M value :=
  try_catch
    (response ← updateLocation_call location;
     mret (response_data response))
    (λ error, mret (object ["success" ::= VBool true])).

Definition getLocationHistory_call : M AxiosResponse :=
  api.get "/location/history".

Definition getLocationHistory : M value :=
  try_catch
    (response ← getLocationHistory_call;
     mret (response_data response))
    (λ error,
       now1 ← Date.now;
       now2 ← Date.now;
       now3 ← Date.now;
       mret (object [
         "locations" ::= VArr [
           object ["lat" ::= VNum 26.1445; "lng" ::= VNum 91.7362;
                   "timestamp" ::= VInt (now1 - 3600000)];
           object ["lat" ::= VNum 26.1465; "lng" ::= VNum 91.7382;
                   "timestamp" ::= VInt (now2 - 1800000)];
           object ["lat" ::= VNum 26.1485; "lng" ::= VNum 91.7402;
                   "timestamp" ::= VInt now3] ] ])).
End locationAPI.

Module alertAPI.
Definition sendPanicAlert_call (alertData : value) : M AxiosResponse :=
  api.post "/alerts/panic" (Some (JsonBody alertData)) ∅.

Definition sendPanicAlert (alertData : value) : M value :=
  try_catch
    (response ← sendPanicAlert_call alertData;
     mret (response_data response))
    (λ error,
       now ← Date.now;
       mret (object [
         "success" ::= VBool true;
         "alertId" ::= VStr ("panic-" +:+ Number_toString now);
         "message" ::= VStr "Emergency alert sent successfully" ])).

Definition getAlerts_call : M AxiosResponse := api.get "/alerts/history".

Definition getAlerts : M value :=
  try_catch
    (response ← getAlerts_call;
     mret (response_data response))
    (λ error,
       now1 ← Date.now;
       now2 ← Date.now;
       mret (object [
         "alerts" ::= VArr [
           object [
             "id" ::= VStr "alert-1";
             "type" ::= VStr "advisory";
             "severity" ::= VStr "medium";
             "message" ::=
               VStr "Weather advisory: Heavy rain expected in Guwahati area";
             "timestamp" ::= VInt (now1 - 7200000);
             "isRead" ::= VBool false ];
           object [
             "id" ::= VStr "alert-2";
             "type" ::= VStr "geo_fence";
             "severity" ::= VStr "high";
             "message" ::= VStr "You are approaching a restricted area";
             "timestamp" ::= VInt (now2 - 3600000);
             "isRead" ::= VBool true ] ] ])).
End alertAPI.

Module blockchainAPI.
Definition mock_qrCode : string :=
  "data:image/png;base64,iVBORw0KGgoAAAANSUhEUgAAAAEAAAABCAYAAAAfFcSJAAAADUlEQVR42mP8/5+hHgAHggJ/PchI7wAAAABJRU5ErkJggg==".

Definition issueDigitalID_call : M AxiosResponse :=
  api.post "/blockchain/issue-id" None ∅.

Definition issueDigitalID : M value :=
  try_catch
    (response ← issueDigitalID_call;
     mret (response_data response))
    (λ error,
       now ← Date.now;
       mret (object [
         "qrCode" ::= VStr mock_qrCode;
         "digitalId" ::= VStr ("DTID-" +:+ Number_toString now) ])).

Definition getQRCode_call (digitalId : string) : M AxiosResponse :=
  api.get ("/blockchain/qr/" +:+ digitalId).

Definition getQRCode (digitalId : string) : M value :=
  try_catch
    (response ← getQRCode_call digitalId;
     mret (response_data response))
    (λ error, mret (object ["qrCode" ::= VStr mock_qrCode])).
End blockchainAPI.

Module aiAPI.
Definition scores : list value := [VInt 75; VInt 80; VInt 85; VInt 90; VInt 95].

Definition getSafetyScore_call : M AxiosResponse := api.get "/ai/safety-score".

Definition getSafetyScore : M value :=
  try_catch
    (response ← getSafetyScore_call;
     mret (response_data response))
    (λ error,
       r ← Math.random;
       mret (object [
         "safetyScore" ::=
           array_get scores
             (Math.floor
                (Number_mul r (inject_Z (Z.of_nat (length scores)))));
         "factors" ::= VArr [
           VStr "Location tracking active";
           VStr "Emergency contacts verified";
           VStr "Current area safety: Good";
           VStr "Weather conditions: Clear" ] ])).
End aiAPI.

(** ** The operation catalog *)

Inductive Operation : Type :=
  | Login (email password : string)
  | Register (userData : value)
  | VerifyOTP (email otp : string)
  | GetProfile
  | UpdateProfile (profileData : value)
  | UploadKYC (formData : FormData)
  | UpdateLocation (location : value)
  | GetLocationHistory
  | SendPanicAlert (alertData : value)
  | GetAlerts
  | IssueDigitalID
  | GetQRCode (digitalId : string)
  | GetSafetyScore.

(** The wrapper of an operation. *)
Definition invoke (op : Operation) : M value :=
  match op with
  | Login email password => authAPI.login email password
  | Register userData => authAPI.register userData
  | VerifyOTP email otp => authAPI.verifyOTP email otp
  | GetProfile => userAPI.getProfile
  | UpdateProfile profileData => userAPI.updateProfile profileData
  | UploadKYC formData => userAPI.uploadKYC formData
  | UpdateLocation location => locationAPI.updateLocation location
  | GetLocationHistory => locationAPI.getLocationHistory
  | SendPanicAlert alertData => alertAPI.sendPanicAlert alertData
  | GetAlerts => alertAPI.getAlerts
  | IssueDigitalID => blockchainAPI.issueDigitalID
  | GetQRCode digitalId => blockchainAPI.getQRCode digitalId
  | GetSafetyScore => aiAPI.getSafetyScore
  end.

(** The live call of an operation: the request it awaits. *)
Definition live (op : Operation) : M AxiosResponse :=
  match op with
  | Login email password => authAPI.login_call email password
  | Register userData => authAPI.register_call userData
  | VerifyOTP email otp => authAPI.verifyOTP_call email otp
  | GetProfile => userAPI.getProfile_call
  | UpdateProfile profileData => userAPI.updateProfile_call profileData
  | UploadKYC formData => userAPI.uploadKYC_call formData
  | UpdateLocation location => locationAPI.updateLocation_call location
  | GetLocationHistory => locationAPI.getLocationHistory_call
  | SendPanicAlert alertData => alertAPI.sendPanicAlert_call alertData
  | GetAlerts => alertAPI.getAlerts_call
  | IssueDigitalID => blockchainAPI.issueDigitalID_call
  | GetQRCode digitalId => blockchainAPI.getQRCode_call digitalId
  | GetSafetyScore => aiAPI.getSafetyScore_call
  end.

(** ** The connectivity monitor ([src/App.tsx])

    The effect of the [App] component registers two listeners on [window]
    and returns the function that removes them.  The store of
    [./lib/store] is outside the sources: of its [setOnlineStatus] the
    model records the calls, in order, with their argument. *)

(** A function object: its identity, and the arguments of the calls to
    [setOnlineStatus] that invoking it makes. *)
Record Callback : Type := mkCallback {
  ident : nat;
  reports : list bool
}.

Record Page : Type := mkPage {
  (** the event listeners of [window], in order of registration *)
  listeners : list (string * Callback);
  (** how many function objects have been created *)
  allocated : nat;
  (** the calls made to [setOnlineStatus], oldest first *)
  status_calls : list bool
}.

Module window.
Definition same_listener (type : string) (listener : Callback)
    (l : string * Callback) : bool :=
  String.eqb l.1 type && Nat.eqb (ident l.2) (ident listener).

(** A listener already registered for the type is not registered again. *)
Definition addEventListener (type : string) (listener : Callback) (p : Page)
    : Page :=
  if existsb (same_listener type listener) (listeners p) then p
  else mkPage (listeners p ++ [(type, listener)]) (allocated p)
              (status_calls p).

Fixpoint remove_first (type : string) (listener : Callback)
    (ls : list (string * Callback)) : list (string * Callback) :=
  match ls with
  | [] => []
  | l :: ls' =>
      if same_listener type listener l then ls'
      else l :: remove_first type listener ls'
  end.

Definition removeEventListener (type : string) (listener : Callback)
    (p : Page) : Page :=
  mkPage (remove_first type listener (listeners p)) (allocated p)
         (status_calls p).

(** The listeners of the type are invoked in order of registration. *)
Definition dispatchEvent (type : string) (p : Page) : Page :=
  mkPage (listeners p) (allocated p)
         (status_calls p
          ++ flat_map (λ l : string * Callback,
                         if String.eqb l.1 type then reports l.2 else [])
                      (listeners p)).
End window.

Module App.
(** Evaluating [() => setOnlineStatus(status)] creates a new function
    object. *)
Definition arrow (status : bool) (p : Page) : Callback * Page :=
  (mkCallback (allocated p) [status],
   mkPage (listeners p) (S (allocated p)) (status_calls p)).

(** The function returned by the effect. *)
Definition cleanup (handlers : Callback * Callback) (p : Page) : Page :=
  let (handleOnline, handleOffline) := handlers in
  let p := window.removeEventListener "online" handleOnline p in
  window.removeEventListener "offline" handleOffline p.

(** The body of [useEffect]; its result stands for the returned closure,
    which [cleanup] runs. *)
Definition effect (p : Page) : (Callback * Callback) * Page :=
  let (handleOnline, p) := arrow true p in
  let (handleOffline, p) := arrow false p in
  let p := window.addEventListener "online" handleOnline p in
  let p := window.addEventListener "offline" handleOffline p in
  ((handleOnline, handleOffline), p).
End App.

(** Every registered listener is a function object created earlier. *)
Definition listeners_allocated (p : Page) : Prop :=
  Forall (λ l : string * Callback, ident l.2 < allocated p) (listeners p).

(** A page whose only listener was registered by someone else. *)
Definition sample_page : Page :=
  {| listeners := [("online", mkCallback 0 [])];
     allocated := 1;
     status_calls := [] |}.

(** ** Declared response shapes *)

Inductive FieldShape : Type :=
  | Any
  | Collection.

Inductive Shape : Type :=
  | Fields (fs : list (string * FieldShape)).

(** Modelled from the spec: the response shape of each operation, which the
    source leaves undeclared (every wrapper returns [any]); taken from the
    operation catalog of the specification, "{user, token}",
    "{locations: [...]}" and so on.  For "profile record", of which the
    specification lists no field, the fields are those of the one profile
    record the source builds ([userAPI.getProfile]). *)
Definition declared_shape (op : Operation) : Shape :=
  match op with
  | Login _ _ => Fields [("user", Any); ("token", Any)]
  | Register _ => Fields [("user", Any); ("token", Any)]
  | VerifyOTP _ _ => Fields [("success", Any)]
  | GetProfile =>
      Fields [("id", Any); ("email", Any); ("firstName", Any);
              ("lastName", Any); ("isKYCVerified", Any);
              ("safetyScore", Any)]
  | UpdateProfile _ => Fields [("success", Any); ("data", Any)]
  | UploadKYC _ => Fields [("success", Any); ("message", Any)]
  | UpdateLocation _ => Fields [("success", Any)]
  | GetLocationHistory => Fields [("locations", Collection)]
  | SendPanicAlert _ =>
      Fields [("success", Any); ("alertId", Any); ("message", Any)]
  | GetAlerts => Fields [("alerts", Collection)]
  | IssueDigitalID => Fields [("qrCode", Any); ("digitalId", Any)]
  | GetQRCode _ => Fields [("qrCode", Any)]
  | GetSafetyScore => Fields [("safetyScore", Any); ("factors", Collection)]
  end.

Definition field_conforms (m : gmap string value) (f : string * FieldShape)
    : bool :=
  match f.2, m !! f.1 with
  | Any, Some _ => true
  | Collection, Some (VArr _) => true
  | _, _ => false
  end.

(** A value has a shape when it is an object with exactly the shape's
    fields, the collections among them being arrays. *)
Definition conforms (s : Shape) (v : value) : bool :=
  match s, v with
  | Fields fs, VObj m =>
      bool_decide (dom m = list_to_set fs.*1) && forallb (field_conforms m) fs
  | _, _ => false
  end.

(** ** Auxiliary definitions for the statements *)

(** [t] occurs in [s]. *)
Definition substring_of (t s : string) : Prop :=
  ∃ pre post : string, s = pre +:+ t +:+ post.

(** The configuration that leaves the request interceptor when the storage
    slot reads [token]. *)
Definition with_token (token : option string) (config : AxiosRequestConfig)
    : AxiosRequestConfig :=
  match token with
  | Some t =>
      if String.eqb t "" then config
      else {| method := method config; url := url config;
              baseURL := baseURL config; timeout := timeout config;
              headers := <["Authorization" := "Bearer " +:+ t]>
                           (headers config);
              data := data config |}
  | None => config
  end.

(** The world once [config] has been handed to the transport. *)
Definition after_sending (config : AxiosRequestConfig) (w : World) : World :=
  mkWorld (storage w) (navigations w) (sent w ++ [config])
          (clock_reads w) (random_draws w).

(** The world once the session has been invalidated. *)
Definition after_logout (w : World) : World :=
  mkWorld (delete "auth-token" (storage w))
          (navigations w ++ ["/auth/login"]) (sent w)
          (clock_reads w) (random_draws w).

(** The configuration an operation passes to [api.request]. *)
Definition request_of (env : Env) (op : Operation) : AxiosRequestConfig :=
  match op with
  | Login email password =>
      api.mergeConfig env "post" "/auth/login"
        (Some (JsonBody (object ["email" ::= VStr email;
                                 "password" ::= VStr password]))) ∅
  | Register userData =>
      api.mergeConfig env "post" "/auth/register"
        (Some (JsonBody userData)) ∅
  | VerifyOTP email otp =>
      api.mergeConfig env "post" "/auth/verify-otp"
        (Some (JsonBody (object ["email" ::= VStr email;
                                 "otp" ::= VStr otp]))) ∅
  | GetProfile => api.mergeConfig env "get" "/user/profile" None ∅
  | UpdateProfile profileData =>
      api.mergeConfig env "put" "/user/profile"
        (Some (JsonBody profileData)) ∅
  | UploadKYC formData =>
      api.mergeConfig env "post" "/user/kyc" (Some (FormBody formData))
        {[ "Content-Type" := "multipart/form-data" ]}
  | UpdateLocation location =>
      api.mergeConfig env "post" "/location/update"
        (Some (JsonBody location)) ∅
  | GetLocationHistory =>
      api.mergeConfig env "get" "/location/history" None ∅
  | SendPanicAlert alertData =>
      api.mergeConfig env "post" "/alerts/panic"
        (Some (JsonBody alertData)) ∅
  | GetAlerts => api.mergeConfig env "get" "/alerts/history" None ∅
  | IssueDigitalID =>
      api.mergeConfig env "post" "/blockchain/issue-id" None ∅
  | GetQRCode digitalId =>
      api.mergeConfig env "get" ("/blockchain/qr/" +:+ digitalId) None ∅
  | GetSafetyScore => api.mergeConfig env "get" "/ai/safety-score" None ∅
  end.

(** The request that actually leaves for the network when [op] is invoked
    in world [w]. *)
Definition outgoing (env : Env) (w : World) (op : Operation)
    : AxiosRequestConfig :=
  with_token (storage w !! "auth-token") (request_of env op).

(** The network answers the request of [op] with status 401. *)
Definition answered_unauthorized (env : Env) (w : World) (op : Operation)
    : Prop :=
  ∃ r, network env (outgoing env w op) = Received r ∧ status r = 401%Z.

(** The index that the fallback of [getSafetyScore] computes from the
    random number [r]. *)
Definition score_index (r : Q) : Z :=
  Math.floor (Number_mul r (inject_Z (Z.of_nat (length aiAPI.scores)))).

(** The numerator of [5 * (m / 2^k)] once rounded, over the denominator
    [2^k]. *)
Definition scaled (m k : Z) : Z :=
  let p := (5 * m)%Z in
  let s := Z.max 0 (Z.max (Z.log2 p - 52) (k - 1074)) in
  (round_shift p s * 2 ^ s)%Z.

(** How many [k] below [n] the test [sel] accepts. *)
Definition count (sel : N → bool) (n : N) : N :=
  N.recursion 0%N (λ k acc, if sel k then N.succ acc else acc) n.

(** A random source whose outcomes are the [2^bits] numbers [k / 2^bits],
    each as likely as the others (the generators of the JavaScript engines
    are of this kind, with 52 or 53 bits). *)
Definition outcome (bits k : N) : Q :=
  Z.of_N k # Z.to_pos (2 ^ Z.of_N bits).

(** The number of its outcomes for which index [i] is computed ... *)
Definition draws_selecting (bits : N) (i : Z) : N :=
  count (λ k, (score_index (outcome bits k) =? i)%Z) (2 ^ bits).

(** ... and for which an index outside the array is computed. *)
Definition draws_missing (bits : N) : N :=
  count (λ k, negb ((0 <=? score_index (outcome bits k))%Z
                    && (score_index (outcome bits k) <=? 4)%Z))
        (2 ^ bits).

(** A caller that invokes the operations of a list one after the other
    and collects what they return. *)
Fixpoint run_all (ops : list Operation) : M (list value) :=
  match ops with
  | [] => mret []
  | op :: ops' => v ← invoke op; vs ← run_all ops'; mret (v :: vs)
  end.

(** ** Sample environments and worlds *)

(** An environment whose network gives the same answer to every request;
    the clock advances by one millisecond per reading. *)
Definition answering (t : Transmission) (r : Q) : Env :=
  {| NEXT_PUBLIC_API_BASE_URL := None;
     network := λ _, t;
     clock := λ n, (1700000000000 + Z.of_nat n)%Z;
     entropy := λ _, r |}.

Definition offline : Env := answering NetworkError 0.5.

Definition replying (s : Z) (d : value) : Env :=
  answering (Received (mkResponse s d)) 0.5.

(** An unreachable network, the environment variable being [base]. *)
Definition configured (base : option string) : Env :=
  {| NEXT_PUBLIC_API_BASE_URL := base;
     network := λ _, NetworkError;
     clock := λ n, (1700000000000 + Z.of_nat n)%Z;
     entropy := λ _, 0.5%Q |}.

(** An unreachable network and a clock that is set back by one hour after
    its first reading. *)
Definition clock_set_back : Env :=
  {| NEXT_PUBLIC_API_BASE_URL := None;
     network := λ _, NetworkError;
     clock := λ n, if Nat.eqb n 0 then 1700000000000%Z
                   else 1699996400000%Z;
     entropy := λ _, 0.5%Q |}.

(** The binary64 number nearest to 0.6, which lies below 3/5. *)
Definition nearest_to_0_6 : Q := 5404319552844595 # 2 ^ 53.

(** A world in which nothing has happened yet, the storage slot holding
    [token]. *)
Definition fresh (token : option string) : World :=
  {| storage := from_option (λ t, {[ "auth-token" := t ]}) ∅ token;
     navigations := []; sent := []; clock_reads := 0; random_draws := 0 |}.

(** * Properties *)

(** ** The monad *)

Lemma try_catch_rejected {A B} (call : M A) (k : A → M B)
    (handler : AxiosError → M B) env w e w1 :
  call env w = (Throw e, w1) →
  try_catch (call ≫= k) handler env w = handler e env w1.
Proof.
  intros H. unfold try_catch, then_, mbind, M_bind. by rewrite H.
Qed.

Lemma try_catch_fulfilled {A B} (call : M A) (f : A → B)
    (handler : AxiosError → M B) env w a w1 :
  call env w = (Normal a, w1) →
  try_catch (call ≫= λ x, mret (f x)) handler env w = (Normal (f a), w1).
Proof.
  intros H. unfold try_catch, then_, mbind, M_bind. by rewrite H.
Qed.

(** ** The request pipeline *)

Lemma request_onFulfilled_run config env w :
  api.interceptors.request.onFulfilled config env w
  = (Normal (with_token (storage w !! "auth-token") config), w).
Proof.
  unfold api.interceptors.request.onFulfilled, localStorage.getItem,
    with_token, mbind, M_bind, read; simpl.
  destruct (storage w !! "auth-token") as [t|]; [|done].
  by destruct (String.eqb t "").
Qed.

Lemma response_onRejected_run {A} error env w :
  api.interceptors.response.onRejected (A:=A) error env w
  = (Throw error,
     if api.interceptors.response.unauthorized error
     then after_logout w else w).
Proof.
  unfold api.interceptors.response.onRejected.
  by destruct (api.interceptors.response.unauthorized error).
Qed.

Lemma request_run config env w :
  api.request config env w =
    let cfg := with_token (storage w !! "auth-token") config in
    match settle (network env cfg) with
    | inl r => (Normal r, after_sending cfg w)
    | inr e =>
        (Throw e,
         if api.interceptors.response.unauthorized e
         then after_logout (after_sending cfg w)
         else after_sending cfg w)
    end.
Proof.
  unfold api.request, then_ at 1 2 3.
  change ((mret config : M _) env w) with (Normal config, w).
  cbv beta iota. rewrite request_onFulfilled_run.
  unfold api.dispatchRequest, mbind, M_bind, ask, update; simpl.
  destruct (settle _) as [r|e]; simpl; [done|].
  apply response_onRejected_run.
Qed.

Lemma live_run op env w :
  live op env w = api.request (request_of env op) env w.
Proof. by destruct op. Qed.

(** The live call of an operation is rejected exactly when the network
    gives no answer, exceeds the time limit, or answers with a status
    outside 2xx. *)
Lemma live_rejected_iff op env w :
  (∃ e w1, live op env w = (Throw e, w1))
  ↔ match network env
            (with_token (storage w !! "auth-token") (request_of env op)) with
    | NetworkError | TimeoutExceeded => True
    | Received r => ¬ (200 ≤ status r < 300)%Z
    end.
Proof.
  rewrite live_run, request_run. cbv zeta.
  destruct (network env _) as [| |r]; simpl.
  - split; [done|]. by eexists _, _.
  - split; [done|]. by eexists _, _.
  - unfold validateStatus.
    destruct (Z.leb_spec 200 (status r)), (Z.ltb_spec (status r) 300); simpl.
    + split; [by intros (? & ? & ?)|lia].
    + split; [lia|]. by eexists _, _.
    + split; [lia|]. by eexists _, _.
    + split; [lia|]. by eexists _, _.
Qed.

(** ** The fallback policy *)

(** Enters the [catch] branch of a wrapper whose awaited call is rejected
    according to [H]. *)
Ltac enter_catch H :=
  unfold authAPI.login, authAPI.register, authAPI.verifyOTP,
    userAPI.getProfile, userAPI.updateProfile, userAPI.uploadKYC,
    locationAPI.updateLocation, locationAPI.getLocationHistory,
    alertAPI.sendPanicAlert, alertAPI.getAlerts,
    blockchainAPI.issueDigitalID, blockchainAPI.getQRCode,
    aiAPI.getSafetyScore;
  rewrite (try_catch_rejected _ _ _ _ _ _ _ H).

(** C1.  Whatever makes the live call of an operation fail (no answer from
    the network, a timeout, a status outside 2xx, 401 included), the
    wrapper returns normally, and the value it returns has the response
    shape declared for the operation. *)
Theorem fallback_absorbs_every_failure op env w e w1 :
  live op env w = (Throw e, w1) →
  ∃ v w2, invoke op env w = (Normal v, w2)
          ∧ conforms (declared_shape op) v = true.
Proof.
  intros H.
  destruct op; simpl in H |- *; enter_catch H;
    eexists _, _; (split; [reflexivity|]); vm_compute; reflexivity.
Qed.

Lemma fallback_absorbs_every_failure_witness :
  let op := Login "bob@example.com" "secret" in
  let env := replying 401 VNull in
  let w := fresh (Some "abc") in
  (∃ e w1, live op env w = (Throw e, w1))
  ∧ ∃ v w2, invoke op env w = (Normal v, w2)
            ∧ conforms (declared_shape op) v = true.
Proof.
  intros op env w.
  assert (H : live op env w
              = (Throw (mkError "ERR_BAD_REQUEST"
                          (Some (mkResponse 401 VNull))),
                 after_logout
                   (after_sending
                      (with_token (Some "abc") (request_of env op)) w)))
    by (vm_compute; reflexivity).
  split; [by eexists _, _|].
  exact (fallback_absorbs_every_failure op env w _ _ H).
Defined.

(** C2.  When the live call of an operation succeeds, the wrapper returns the
    data of the response the network gave, as it is, and the only effect
    is that of the request itself: one request handed to the transport,
    the storage, the navigation, the clock and the random source being
    left as they were. *)
Theorem success_returns_server_data op env w r w1 :
  live op env w = (Normal r, w1) →
  invoke op env w = (Normal (response_data r), w1)
  ∧ ∃ cfg, network env cfg = Received r ∧ w1 = after_sending cfg w.
Proof.
  intros H. split.
  - destruct op; simpl in H |- *;
      apply (try_catch_fulfilled _ response_data _ _ _ _ _ H).
  - rewrite live_run, request_run in H. cbv zeta in H.
    set (cfg := with_token _ _) in H. exists cfg.
    destruct (network env cfg) as [| |r'] eqn:Hnet; simpl in H; try done.
    destruct (validateStatus (status r')); [|done].
    by inversion H; subst.
Qed.

Lemma success_returns_server_data_witness :
  let op := GetQRCode "DTID-7" in
  let d := object ["qrCode" ::= VStr "server-side"] in
  let env := replying 200 d in
  let w := fresh None in
  let w1 := after_sending (request_of env op) w in
  live op env w = (Normal (mkResponse 200 d), w1)
  ∧ invoke op env w = (Normal d, w1).
Proof.
  intros op d env w w1.
  assert (H : live op env w = (Normal (mkResponse 200 d), w1))
    by (vm_compute; reflexivity).
  split; [exact H|].
  exact (proj1 (success_returns_server_data op env w _ _ H)).
Defined.

(** C9.  When the live call fails, one-time-code verification answers
    [{success: true}] for every email and every code. *)
Theorem verifyOTP_fallback_accepts_every_code email otp env w e w1 :
  authAPI.verifyOTP_call email otp env w = (Throw e, w1) →
  authAPI.verifyOTP email otp env w
  = (Normal (object ["success" ::= VBool true]), w1).
Proof.
  intros H. by enter_catch H.
Qed.

Lemma verifyOTP_fallback_accepts_every_code_witness :
  let env := answering TimeoutExceeded 0.5 in
  let w := fresh None in
  let w1 :=
    after_sending (request_of env (VerifyOTP "bob@example.com" "000000")) w in
  authAPI.verifyOTP_call "bob@example.com" "000000" env w
  = (Throw (mkError "ECONNABORTED" None), w1)
  ∧ authAPI.verifyOTP "bob@example.com" "000000" env w
    = (Normal (object ["success" ::= VBool true]), w1).
Proof.
  intros env w w1.
  assert (H : authAPI.verifyOTP_call "bob@example.com" "000000" env w
              = (Throw (mkError "ECONNABORTED" None), w1))
    by (vm_compute; reflexivity).
  split; [exact H|].
  exact (verifyOTP_fallback_accepts_every_code _ _ env w _ _ H).
Defined.

(** C10.  The fallback of QR-code retrieval does not depend on the
    requested identifier: whenever two retrievals both fail, whatever the
    identifiers, environments and worlds, they return the same value, the
    object holding the fixed [qrCode]. *)
Theorem getQRCode_fallback_independent_of_id
    id1 id2 env1 env2 w1 w2 e1 e2 w1' w2' :
  blockchainAPI.getQRCode_call id1 env1 w1 = (Throw e1, w1') →
  blockchainAPI.getQRCode_call id2 env2 w2 = (Throw e2, w2') →
  (blockchainAPI.getQRCode id1 env1 w1).1
  = (blockchainAPI.getQRCode id2 env2 w2).1
  ∧ (blockchainAPI.getQRCode id1 env1 w1).1
    = Normal (object ["qrCode" ::= VStr blockchainAPI.mock_qrCode]).
Proof.
  intros H1 H2. unfold blockchainAPI.getQRCode.
  by rewrite (try_catch_rejected _ _ _ _ _ _ _ H1),
             (try_catch_rejected _ _ _ _ _ _ _ H2).
Qed.

Lemma getQRCode_fallback_independent_of_id_witness :
  let e := mkError "ERR_NETWORK" None in
  let w := fresh None in
  blockchainAPI.getQRCode_call "DTID-1" offline w
  = (Throw e, after_sending (request_of offline (GetQRCode "DTID-1")) w)
  ∧ blockchainAPI.getQRCode_call "DTID-2" offline w
    = (Throw e, after_sending (request_of offline (GetQRCode "DTID-2")) w)
  ∧ (blockchainAPI.getQRCode "DTID-1" offline w).1
    = (blockchainAPI.getQRCode "DTID-2" offline w).1.
Proof.
  intros e w.
  assert (H1 : blockchainAPI.getQRCode_call "DTID-1" offline w
    = (Throw e, after_sending (request_of offline (GetQRCode "DTID-1")) w))
    by (vm_compute; reflexivity).
  assert (H2 : blockchainAPI.getQRCode_call "DTID-2" offline w
    = (Throw e, after_sending (request_of offline (GetQRCode "DTID-2")) w))
    by (vm_compute; reflexivity).
  split; [exact H1|]. split; [exact H2|].
  exact (proj1 (getQRCode_fallback_independent_of_id _ _ _ _ _ _ _ _ _ _
                  H1 H2)).
Defined.

(** ** The interceptors *)

Lemma request_of_unauthenticated env op :
  headers (request_of env op) !! "Authorization" = None.
Proof. by destruct op. Qed.

Lemma sent_after_request config env w :
  sent (api.request config env w).2
  = sent w ++ [with_token (storage w !! "auth-token") config].
Proof.
  rewrite request_run. cbv zeta.
  destruct (settle _) as [r|e]; [done|].
  by destruct (api.interceptors.response.unauthorized e).
Qed.

(** C3, as stated, fails when the storage slot holds the empty string: the
    interceptor's test [if (token)] is false for it, and the request leaves
    without an [Authorization] header instead of with ["Bearer "]. *)
Lemma empty_token_is_not_attached :
  let w := fresh (Some "") in
  storage w !! "auth-token" = Some ""
  ∧ ∃ cfg, sent (live GetProfile offline w).2 = [cfg]
           ∧ headers cfg !! "Authorization" = None
           ∧ headers cfg !! "Authorization" ≠ Some ("Bearer " +:+ "").
Proof.
  intros w. split; [done|].
  exists (request_of offline GetProfile).
  split; [by vm_compute|]. by split.
Qed.

(** C3, amended.  Every operation hands exactly one request to the
    transport.  If the storage slot holds a non-empty token [T] when the
    operation is called, the [Authorization] header of that request is
    ["Bearer "] followed by [T]; if the slot is absent or holds the empty
    string, the request has no [Authorization] header. *)
Theorem bearer_token_attached op env w :
  ∃ cfg, sent (live op env w).2 = sent w ++ [cfg]
    ∧ (∀ T, storage w !! "auth-token" = Some T → T ≠ "" →
         headers cfg !! "Authorization" = Some ("Bearer " +:+ T))
    ∧ (storage w !! "auth-token" = None
       ∨ storage w !! "auth-token" = Some "" →
         headers cfg !! "Authorization" = None).
Proof.
  eexists. split; [rewrite live_run; apply sent_after_request|].
  split.
  - intros T -> HT. simpl.
    destruct (String.eqb_spec T ""); [done|]. simpl.
    by rewrite lookup_insert_eq.
  - intros [-> | ->]; simpl; apply request_of_unauthenticated.
Qed.

Lemma bearer_token_attached_witness :
  (let w := fresh (Some "abc") in
   storage w !! "auth-token" = Some "abc" ∧ "abc" ≠ ""
   ∧ ∃ cfg, sent (live GetAlerts offline w).2 = sent w ++ [cfg]
            ∧ headers cfg !! "Authorization" = Some "Bearer abc")
  ∧ (let w := fresh None in
     storage w !! "auth-token" = None
     ∧ ∃ cfg, sent (live GetAlerts offline w).2 = sent w ++ [cfg]
              ∧ headers cfg !! "Authorization" = None).
Proof.
  split; intros w.
  - assert (H1 : storage w !! "auth-token" = Some "abc") by reflexivity.
    assert (H2 : "abc" ≠ "") by discriminate.
    split; [exact H1|]. split; [exact H2|].
    destruct (bearer_token_attached GetAlerts offline w)
      as (cfg & Hsent & Hsome & _).
    exists cfg. split; [exact Hsent|]. exact (Hsome "abc" H1 H2).
  - assert (H1 : storage w !! "auth-token" = None) by reflexivity.
    split; [exact H1|].
    destruct (bearer_token_attached GetAlerts offline w)
      as (cfg & Hsent & _ & Hnone).
    exists cfg. split; [exact Hsent|]. exact (Hnone (or_introl H1)).
Defined.

(** C4.  The error path of the response interceptor always re-raises the
    error it was given.  If the error carries a response of status 401,
    then afterwards the token slot of the storage is empty and exactly one
    navigation, to the login route, has been added; if it carries no
    response, or one of another status, the world is as it was. *)
Theorem unauthorized_clears_session error env w :
  let result :=
    api.interceptors.response.onRejected (A:=AxiosResponse) error env w in
  result.1 = Throw error
  ∧ ((∃ r, response error = Some r ∧ status r = 401%Z) →
       result.2 = after_logout w
       ∧ storage result.2 !! "auth-token" = None
       ∧ navigations result.2 = navigations w ++ ["/auth/login"])
  ∧ ((∀ r, response error = Some r → status r ≠ 401%Z) →
       result.2 = w).
Proof.
  cbv zeta. rewrite response_onRejected_run. simpl.
  unfold api.interceptors.response.unauthorized.
  split; [done|]. split.
  - intros (r & -> & ->). simpl. split; [done|].
    split; [apply lookup_delete_eq|done].
  - intros H. destruct (response error) as [r|]; [|done].
    specialize (H r eq_refl).
    by destruct (Z.eqb_spec (status r) 401).
Qed.

Lemma unauthorized_clears_session_witness :
  (let error := mkError "ERR_BAD_REQUEST" (Some (mkResponse 401 VNull)) in
   let w := fresh (Some "abc") in
   let result :=
     api.interceptors.response.onRejected (A:=AxiosResponse) error offline w
   in
   (∃ r, response error = Some r ∧ status r = 401%Z)
   ∧ storage result.2 !! "auth-token" = None
   ∧ navigations result.2 = ["/auth/login"])
  ∧ (let error := mkError "ERR_NETWORK" None in
     let w := fresh (Some "abc") in
     let result :=
       api.interceptors.response.onRejected (A:=AxiosResponse) error offline w
   in
     (∀ r, response error = Some r → status r ≠ 401%Z)
     ∧ result.2 = w).
Proof.
  split; intros error w result.
  - assert (H : ∃ r, response error = Some r ∧ status r = 401%Z)
      by (by exists (mkResponse 401 VNull)).
    split; [exact H|].
    exact (proj2 (proj1 (proj2 (unauthorized_clears_session error offline w))
                    H)).
  - assert (H : ∀ r, response error = Some r → status r ≠ 401%Z)
      by (intros r Hr; discriminate Hr).
    split; [exact H|].
    exact (proj2 (proj2 (unauthorized_clears_session error offline w)) H).
Defined.

(** ** Substring search *)

Lemma append_cons c (s t : string) : String c s +:+ t = String c (s +:+ t).
Proof. done. Qed.

Lemma prefix_spec t s :
  String.prefix t s = true ↔ ∃ post, s = t +:+ post.
Proof.
  revert s. induction t as [|c t IH]; intros s.
  - split; [by exists s|by destruct s].
  - destruct s as [|c' s]; cbn.
    + split; [done|]. by intros [post ?].
    + destruct (Ascii.ascii_dec c c') as [->|Hne].
      * rewrite IH.
        split; intros [post Hpost]; exists post;
          rewrite append_cons in *; congruence.
      * split; [done|]. intros [post Hpost].
        rewrite append_cons in Hpost. congruence.
Qed.

Lemma includes_cons c s t :
  includes (String c s) t = String.prefix t (String c s) || includes s t.
Proof. done. Qed.

Lemma includes_spec s t : includes s t = true ↔ substring_of t s.
Proof.
  unfold substring_of. split.
  - induction s as [|c s IH].
    + change (includes "" t) with (String.prefix t "" || false).
      rewrite orb_true_iff, prefix_spec.
      intros [[post ->]|?]; [by exists "", post|done].
    + rewrite includes_cons, orb_true_iff, prefix_spec.
      intros [[post ->]|H]; [by exists "", post|].
      destruct (IH H) as (pre & post & ->). by exists (String c pre), post.
  - intros (pre & post & ->).
    induction pre as [|c pre IH].
    + change ("" +:+ t +:+ post) with (t +:+ post).
      assert (Hp : String.prefix t (t +:+ post) = true)
        by (apply prefix_spec; by exists post).
      destruct (t +:+ post); [|rewrite includes_cons];
        cbn [includes]; by rewrite Hp.
    + change (String c pre +:+ t +:+ post)
        with (String c (pre +:+ t +:+ post)).
      rewrite includes_cons, IH. apply orb_true_r.
Qed.

(** ** Synthesised identities *)

Lemma get_field_eq m k v : get (VObj (<[k := v]> m)) k = v.
Proof. simpl. by rewrite lookup_insert_eq. Qed.

(** C5.  When the live call fails, the user that login synthesises has the
    role ['authority'] exactly when the email contains the text
    "authority", and the role ['tourist'] exactly when it does not. *)
Theorem login_fallback_role email password env w e w1 :
  authAPI.login_call email password env w = (Throw e, w1) →
  ∃ v w2, authAPI.login email password env w = (Normal v, w2)
    ∧ (get (get v "user") "role" = VStr "authority"
       ↔ substring_of "authority" email)
    ∧ (get (get v "user") "role" = VStr "tourist"
       ↔ ¬ substring_of "authority" email).
Proof.
  intros H. enter_catch H.
  eexists _, _. split; [reflexivity|].
  rewrite <- includes_spec.
  change (get (get _ "user") "role")
    with (VStr (if includes email "authority" then "authority" else "tourist")).
  destruct (includes email "authority"); split; split; (done || congruence).
Qed.

Lemma login_fallback_role_witness :
  let w := fresh None in
  let e := mkError "ERR_NETWORK" None in
  (let email := "authority.bob@example.com" in
   authAPI.login_call email "pw" offline w
   = (Throw e, after_sending (request_of offline (Login email "pw")) w)
   ∧ ∃ v w2, authAPI.login email "pw" offline w = (Normal v, w2)
             ∧ get (get v "user") "role" = VStr "authority")
  ∧ (let email := "bob@example.com" in
     authAPI.login_call email "pw" offline w
     = (Throw e, after_sending (request_of offline (Login email "pw")) w)
     ∧ ∃ v w2, authAPI.login email "pw" offline w = (Normal v, w2)
               ∧ get (get v "user") "role" = VStr "tourist").
Proof.
  intros w e. split; intros email.
  - assert (H : authAPI.login_call email "pw" offline w
      = (Throw e, after_sending (request_of offline (Login email "pw")) w))
      by (vm_compute; reflexivity).
    split; [exact H|].
    destruct (login_fallback_role email "pw" offline w _ _ H)
      as (v & w2 & Hrun & Hauth & _).
    exists v, w2. split; [exact Hrun|].
    apply Hauth. by exists "", ".bob@example.com".
  - assert (H : authAPI.login_call email "pw" offline w
      = (Throw e, after_sending (request_of offline (Login email "pw")) w))
      by (vm_compute; reflexivity).
    split; [exact H|].
    destruct (login_fallback_role email "pw" offline w _ _ H)
      as (v & w2 & Hrun & _ & Htourist).
    exists v, w2. split; [exact Hrun|].
    apply Htourist. intros Hsub. apply includes_spec in Hsub.
    discriminate Hsub.
Defined.

(** C6, as stated, fails: registration does not look at the email.  With
    the email "authority.bob@example.com", which contains "authority", the
    synthesised user is a ['tourist']. *)
Lemma register_fallback_ignores_email :
  let userData := object ["email" ::= VStr "authority.bob@example.com"] in
  let w := fresh None in
  substring_of "authority" "authority.bob@example.com"
  ∧ authAPI.register_call userData offline w
    = (Throw (mkError "ERR_NETWORK" None),
       after_sending (request_of offline (Register userData)) w)
  ∧ ∃ v w2, authAPI.register userData offline w = (Normal v, w2)
            ∧ get (get v "user") "email" = VStr "authority.bob@example.com"
            ∧ get (get v "user") "role" = VStr "tourist"
            ∧ get (get v "user") "role" ≠ VStr "authority".
Proof.
  intros userData w.
  split; [by exists "", ".bob@example.com"|].
  split; [by vm_compute|].
  eexists _, _. split; [reflexivity|].
  split; [by vm_compute|]. split; [by vm_compute|].
  by vm_compute.
Qed.

(** C6, amended.  When the live call fails, the user that registration
    synthesises always has the role ['tourist'], whatever the supplied
    data: neither its email nor a role of its own changes that. *)
Theorem register_fallback_role userData env w e w1 :
  authAPI.register_call userData env w = (Throw e, w1) →
  ∃ v w2, authAPI.register userData env w = (Normal v, w2)
          ∧ get (get v "user") "role" = VStr "tourist".
Proof.
  intros H. enter_catch H.
  eexists _, _. split; [reflexivity|].
  change (get (object _) "user") with
    (object ["id" ::= VStr ("new-user-" +:+ Number_toString (clock env (clock_reads w1)));
             Spread userData; "role" ::= VStr "tourist"]).
  apply get_field_eq.
Qed.

Lemma register_fallback_role_witness :
  let userData := object ["email" ::= VStr "authority.bob@example.com";
                          "role" ::= VStr "authority"] in
  let w := fresh None in
  authAPI.register_call userData offline w
  = (Throw (mkError "ERR_NETWORK" None),
     after_sending (request_of offline (Register userData)) w)
  ∧ ∃ v w2, authAPI.register userData offline w = (Normal v, w2)
            ∧ get (get v "user") "role" = VStr "tourist".
Proof.
  intros userData w.
  assert (H : authAPI.register_call userData offline w
    = (Throw (mkError "ERR_NETWORK" None),
       after_sending (request_of offline (Register userData)) w))
    by (vm_compute; reflexivity).
  split; [exact H|].
  exact (register_fallback_role userData offline w _ _ H).
Defined.

(** ** Synthesised readings *)

Lemma live_rejected_counters op env w e w1 :
  live op env w = (Throw e, w1) →
  clock_reads w1 = clock_reads w ∧ random_draws w1 = random_draws w.
Proof.
  rewrite live_run, request_run. cbv zeta.
  destruct (settle _) as [r|e']; [done|].
  intros [= _ <-]. by destruct (api.interceptors.response.unauthorized e').
Qed.

(** C7, as stated, fails when the system clock is set back between the
    three readings that the fallback makes: with the clock one hour back
    after the first reading, the second timestamp is below the first. *)
Lemma location_history_unordered_when_clock_set_back :
  let w := fresh None in
  locationAPI.getLocationHistory_call clock_set_back w
  = (Throw (mkError "ERR_NETWORK" None),
     after_sending (request_of clock_set_back GetLocationHistory) w)
  ∧ ∃ v w2 l1 l2 l3,
      locationAPI.getLocationHistory clock_set_back w = (Normal v, w2)
      ∧ get v "locations" = VArr [l1; l2; l3]
      ∧ get l1 "timestamp" = VInt 1699996400000
      ∧ get l2 "timestamp" = VInt 1699994600000
      ∧ get l3 "timestamp" = VInt 1699996400000
      ∧ ¬ (1699996400000 < 1699994600000)%Z.
Proof.
  intros w. split; [by vm_compute|].
  eexists _, _, _, _, _. split; [reflexivity|]. split; [reflexivity|].
  split; [by vm_compute|]. split; [by vm_compute|].
  split; [by vm_compute|]. lia.
Qed.

(** C7, amended.  When the live call fails, and provided the system clock
    does not run backwards, location history returns exactly three
    entries whose timestamps are strictly increasing, the last of them
    being at or before every reading of the clock from the one that
    produced it on. *)
Theorem location_history_fallback env w e w1 :
  locationAPI.getLocationHistory_call env w = (Throw e, w1) →
  (∀ i j, i ≤ j → (clock env i ≤ clock env j)%Z) →
  ∃ v w2 l1 l2 l3 t1 t2 t3,
    locationAPI.getLocationHistory env w = (Normal v, w2)
    ∧ get v "locations" = VArr [l1; l2; l3]
    ∧ get l1 "timestamp" = VInt t1
    ∧ get l2 "timestamp" = VInt t2
    ∧ get l3 "timestamp" = VInt t3
    ∧ (t1 < t2 < t3)%Z
    ∧ ∀ n, clock_reads w2 ≤ S n → (t3 ≤ clock env n)%Z.
Proof.
  intros H Hmono. enter_catch H.
  eexists _, _, _, _, _, _, _, _.
  split; [reflexivity|]. split; [reflexivity|].
  split; [reflexivity|]. split; [reflexivity|]. split; [reflexivity|].
  simpl. split.
  - pose proof (Hmono (clock_reads w1) (S (clock_reads w1))).
    pose proof (Hmono (S (clock_reads w1)) (S (S (clock_reads w1)))).
    lia.
  - intros n Hn. apply Hmono. lia.
Qed.

Lemma location_history_fallback_witness :
  let w := fresh None in
  locationAPI.getLocationHistory_call offline w
  = (Throw (mkError "ERR_NETWORK" None),
     after_sending (request_of offline GetLocationHistory) w)
  ∧ (∀ i j, i ≤ j → (clock offline i ≤ clock offline j)%Z)
  ∧ ∃ v w2 l1 l2 l3 t1 t2 t3,
      locationAPI.getLocationHistory offline w = (Normal v, w2)
      ∧ get v "locations" = VArr [l1; l2; l3]
      ∧ get l1 "timestamp" = VInt t1
      ∧ get l2 "timestamp" = VInt t2
      ∧ get l3 "timestamp" = VInt t3
      ∧ (t1 < t2 < t3)%Z
      ∧ ∀ n, clock_reads w2 ≤ S n → (t3 ≤ clock offline n)%Z.
Proof.
  intros w.
  assert (H : locationAPI.getLocationHistory_call offline w
    = (Throw (mkError "ERR_NETWORK" None),
       after_sending (request_of offline GetLocationHistory) w))
    by (vm_compute; reflexivity).
  assert (Hmono : ∀ i j, i ≤ j → (clock offline i ≤ clock offline j)%Z)
    by (intros i j Hij; simpl; lia).
  split; [exact H|]. split; [exact Hmono|].
  exact (location_history_fallback offline w _ _ H Hmono).
Defined.

(** ** The random score *)

Lemma round_shift_exact (p s : Z) : (s ≤ 0)%Z → round_shift p s = p.
Proof. intros. unfold round_shift. destruct (Z.leb_spec s 0); [done|lia]. Qed.

(** Rounding moves [p] by at most half a unit of the last place kept, and
    never below the truncation. *)
Lemma round_shift_near (p s : Z) :
  (0 ≤ p → 1 ≤ s →
   p / 2 ^ s * 2 ^ s ≤ round_shift p s * 2 ^ s
   ∧ round_shift p s * 2 ^ s ≤ p + 2 ^ (s - 1)
   ∧ p - 2 ^ (s - 1) ≤ round_shift p s * 2 ^ s)%Z.
Proof.
  intros Hp Hs. unfold round_shift.
  destruct (Z.leb_spec s 0); [lia|].
  assert (Hpow : (2 ^ s = 2 * 2 ^ (s - 1))%Z).
  { replace s with (Z.succ (s - 1)) at 1 by lia. apply Z.pow_succ_r. lia. }
  assert (Hh : (0 < 2 ^ (s - 1))%Z) by (apply Z.pow_pos_nonneg; lia).
  pose proof (Z.div_mod p (2 ^ s) ltac:(lia)) as Hdm.
  pose proof (Z.mod_pos_bound p (2 ^ s) ltac:(lia)) as Hrem.
  set (q := (p / 2 ^ s)%Z) in *. set (rem := (p mod 2 ^ s)%Z) in *.
  set (h := (2 ^ (s - 1))%Z) in *. rewrite Hpow in *.
  destruct (Z.ltb_spec rem h); [nia|].
  destruct (Z.ltb_spec h rem); [nia|].
  destruct (Z.even q); nia.
Qed.

(** Of the product of a binary64 below 1 by 5, at most three bits are
    rounded away, and then the denominator has fifty bits to spare. *)
Lemma scaled_shift (m k : Z) :
  (0 < m < 2 ^ 53 → 0 ≤ k ≤ 1074 → m < 2 ^ k →
   let s := Z.max 0 (Z.max (Z.log2 (5 * m) - 52) (k - 1074)) in
   s = 0 ∨ (1 ≤ s ≤ 3 ∧ s + 50 ≤ k))%Z.
Proof.
  intros Hm Hk Hlt s.
  pose proof (Z.log2_nonneg (5 * m)) as HL0.
  destruct (Z.le_gt_cases (Z.log2 (5 * m)) 52) as [HL|HL]; [left; lia|].
  right.
  assert (HL55 : (Z.log2 (5 * m) < 56)%Z).
  { apply Z.log2_lt_pow2; [lia|]. change (2 ^ 56)%Z with (8 * 2 ^ 53)%Z. lia. }
  assert (Hs : s = (Z.log2 (5 * m) - 52)%Z) by lia.
  split; [lia|].
  assert (Hlow : (2 ^ Z.log2 (5 * m) ≤ 5 * m)%Z)
    by (apply Z.log2_spec; lia).
  assert (Hk3 : (Z.log2 (5 * m) < k + 3)%Z).
  { apply Z.log2_lt_pow2; [lia|].
    rewrite Z.pow_add_r by lia. change (2 ^ 3)%Z with 8%Z. lia. }
  lia.
Qed.

Lemma scaled_index_pos (m k : Z) :
  (0 < m < 2 ^ 53 → 0 ≤ k ≤ 1074 → m < 2 ^ k →
   0 ≤ scaled m k < 5 * 2 ^ k
   ∧ ∀ i, 0 ≤ i →
       (i * 2 ^ k ≤ 5 * m →
        5 * m * 2 ^ 50 ≤ (i + 1) * 2 ^ k * 2 ^ 50 - 2 ^ k →
        scaled m k / 2 ^ k = i)
       ∧ (scaled m k / 2 ^ k = i →
          i * 2 ^ k * 2 ^ 51 - 2 ^ k ≤ 5 * m * 2 ^ 51
          ∧ 5 * m < (i + 1) * 2 ^ k))%Z.
Proof.
  intros Hm Hk Hlt.
  assert (HK : (0 < 2 ^ k)%Z) by (apply Z.pow_pos_nonneg; lia).
  assert (Hdiv : ∀ F i : Z,
            (i * 2 ^ k ≤ F < (i + 1) * 2 ^ k ↔ F / 2 ^ k = i)%Z).
  { intros F i. split.
    - intros [H1 H2]. symmetry.
      apply Z.div_unique with (F - i * 2 ^ k)%Z; lia.
    - intros <-. pose proof (Z.div_mod F (2 ^ k) ltac:(lia)).
      pose proof (Z.mod_pos_bound F (2 ^ k) ltac:(lia)). lia. }
  unfold scaled. cbv zeta.
  destruct (scaled_shift m k Hm Hk Hlt) as [Hs|[Hs Hks]].
  - rewrite Hs, round_shift_exact, Z.mul_1_r by lia.
    split; [lia|]. intros i Hi. rewrite <- !Hdiv. split; [|lia].
    intros H1 H2. split; [done|]. nia.
  - set (s := Z.max 0 _) in *. set (p := (5 * m)%Z) in *.
    destruct (round_shift_near p s ltac:(lia) ltac:(lia))
      as (Hfl & Hup & Hlo).
    set (F := (round_shift p s * 2 ^ s)%Z) in *.
    assert (HA : (2 ^ k = 2 ^ (k - s - 50) * 2 ^ 50 * 2 ^ s)%Z).
    { rewrite <- !Z.pow_add_r by lia. f_equal. lia. }
    assert (HA' : (1 ≤ 2 ^ (k - s - 50))%Z)
      by (apply Z.lt_pred_le, Z.pow_pos_nonneg; lia).
    set (A' := (2 ^ (k - s - 50))%Z) in *.
    assert (Hfloor : ∀ i : Z, (i * 2 ^ k ≤ p → i * 2 ^ k ≤ F)%Z).
    { intros i Hip. etrans; [|exact Hfl].
      assert (i * (A' * 2 ^ 50) ≤ p / 2 ^ s)%Z.
      { apply Z.div_le_lower_bound; [apply Z.pow_pos_nonneg; lia|].
        rewrite HA in Hip. lia. }
      rewrite HA.
      assert (0 < 2 ^ s)%Z by (apply Z.pow_pos_nonneg; lia). nia. }
    assert (Hcases : s = 1%Z ∨ s = 2%Z ∨ s = 3%Z) by lia.
    assert (Hh : (2 ^ (s - 1) * 2 = 2 ^ s ∧ 1 ≤ 2 ^ (s - 1) ≤ 4)%Z).
    { destruct Hcases as [->|[->| ->]]; simpl; lia. }
    set (h := (2 ^ (s - 1))%Z) in *. destruct Hh as [Hh1 Hh2].
    assert (HT : (2 * h ≤ A' * 2 ^ s)%Z) by (rewrite <- Hh1; nia).
    set (T := (A' * 2 ^ s)%Z) in *.
    assert (HK2 : (2 ^ k = T * 2 ^ 50)%Z) by (rewrite HA; unfold T; ring).
    clear HA. rewrite HK2 in *.
    change (2 ^ 50)%Z with 1125899906842624%Z in *.
    change (2 ^ 51)%Z with 2251799813685248%Z in *.
    split.
    + split; [specialize (Hfloor 0%Z); lia|]. lia.
    + intros i Hi. rewrite <- !Hdiv. split.
      * intros H1 H2. split; [by apply Hfloor|]. lia.
      * intros [H1 H2]. split; [lia|].
        destruct (Z.lt_ge_cases p ((i + 1) * (T * 1125899906842624)))
          as [|Hge]; [done|].
        apply Hfloor in Hge. lia.
Qed.

(** The index computed for [m / 2^k]: it is [i] whenever the exact product
    is between [i] and [i + 1 - 2^-50], and only if the exact product is
    between [i - 2^-51] and [i + 1]. *)
Lemma scaled_index (m k : Z) :
  (0 ≤ m < 2 ^ 53 → 0 ≤ k ≤ 1074 → m < 2 ^ k →
   0 ≤ scaled m k < 5 * 2 ^ k
   ∧ ∀ i, 0 ≤ i →
       (i * 2 ^ k ≤ 5 * m →
        5 * m * 2 ^ 50 ≤ (i + 1) * 2 ^ k * 2 ^ 50 - 2 ^ k →
        scaled m k / 2 ^ k = i)
       ∧ (scaled m k / 2 ^ k = i →
          i * 2 ^ k * 2 ^ 51 - 2 ^ k ≤ 5 * m * 2 ^ 51
          ∧ 5 * m < (i + 1) * 2 ^ k))%Z.
Proof.
  intros Hm Hk Hlt.
  destruct (Z.eq_dec m 0%Z) as [->|Hne]; [|apply scaled_index_pos; lia].
  assert (HK : (0 < 2 ^ k)%Z) by (apply Z.pow_pos_nonneg; lia).
  assert (Hz : scaled 0 k = 0%Z).
  { unfold scaled. cbv zeta. change (5 * 0)%Z with 0%Z.
    change (Z.log2 0) with 0%Z.
    rewrite round_shift_exact by lia. rewrite Z.max_l by lia. reflexivity. }
  rewrite Hz. rewrite Z.div_0_l by lia.
  split; [lia|]. intros i Hi. split; [nia|]. intros <-. lia.
Qed.

(** A binary64 number in [[0, 1)] is [m / 2^k] with [m < 2^53], and the
    index computed from it is that of [scaled]. *)
Lemma score_index_scaled (r : Q) :
  binary64_below_2_53 r = true → (0 <= r < 1)%Q →
  ∃ m k : Z,
    (0 ≤ m < 2 ^ 53)%Z ∧ (0 ≤ k ≤ 1074)%Z ∧ (m < 2 ^ k)%Z
    ∧ (r == m # Z.to_pos (2 ^ k))%Q
    ∧ score_index r = (scaled m k / 2 ^ k)%Z.
Proof.
  unfold binary64_below_2_53, dyadic. cbn [fst snd].
  rewrite !andb_true_iff, Z.eqb_eq, Z.ltb_lt, Z.leb_le.
  intros [[Hden Hm] Hk] [H0 H1].
  pose proof (Qred_correct r) as Hred.
  set (m := Qnum (Qred r)) in *. set (d := Qden (Qred r)) in *.
  set (k := Z.log2 (Z.pos d)) in *.
  assert (Hk0 : (0 ≤ k)%Z) by apply Z.log2_nonneg.
  assert (Hr : (r == m # d)%Q) by (rewrite <- Hred; by destruct (Qred r)).
  assert (Hm0 : (0 ≤ m)%Z).
  { rewrite Hr in H0. unfold Qle in H0. simpl in H0. lia. }
  assert (Hm1 : (m < 2 ^ k)%Z).
  { rewrite Hr in H1. unfold Qlt in H1. simpl in H1. lia. }
  exists m, k. split; [lia|]. split; [lia|]. split; [done|].
  split. { rewrite Hr, <- Hden. by rewrite Pos2Z.id. }
  unfold score_index, Math.floor, Number_mul, dyadic. cbn [fst snd].
  change (Qred (inject_Z (Z.of_nat (length aiAPI.scores)))) with (5 # 1)%Q.
  cbn [Qnum Qden]. change (Z.log2 1) with 0%Z. fold m d k.
  rewrite Z.add_0_r, (Z.mul_comm m 5%Z), Z.abs_eq by lia.
  unfold Qfloor. rewrite Z2Pos.id by (apply Z.pow_pos_nonneg; lia).
  f_equal. unfold scaled. cbv zeta.
  destruct (Z.eq_dec m 0%Z) as [Hz|Hz].
  - rewrite Hz. change (5 * 0)%Z with 0%Z. change (Z.log2 0) with 0%Z.
    rewrite round_shift_exact by lia. simpl. lia.
  - rewrite Z.sgn_pos by lia. lia.
Qed.

Lemma dyadic_order (m : Z) (D : positive) (i : Z) :
  ((inject_Z i <= 5 * (m # D))%Q ↔ (i * Z.pos D ≤ 5 * m)%Z)
  ∧ ((5 * (m # D) <= inject_Z i + 1 - (1 # 2 ^ 50))%Q
     ↔ (5 * m * 2 ^ 50 ≤ (i + 1) * Z.pos D * 2 ^ 50 - Z.pos D)%Z)
  ∧ ((inject_Z i - (1 # 2 ^ 51) <= 5 * (m # D))%Q
     ↔ (i * Z.pos D * 2 ^ 51 - Z.pos D ≤ 5 * m * 2 ^ 51)%Z)
  ∧ ((5 * (m # D) < inject_Z i + 1)%Q ↔ (5 * m < (i + 1) * Z.pos D)%Z).
Proof.
  unfold Qle, Qlt, Qminus, Qplus, Qmult, Qopp, inject_Z. cbn [Qnum Qden].
  rewrite ?Pos2Z.inj_mul.
  change (Z.pos (2 ^ 50)) with 1125899906842624%Z.
  change (Z.pos (2 ^ 51)) with 2251799813685248%Z.
  change (2 ^ 50)%Z with 1125899906842624%Z.
  change (2 ^ 51)%Z with 2251799813685248%Z.
  generalize (Z.pos D) (Pos2Z.is_pos D). intros K HK.
  repeat split; intros; nia.
Qed.

Lemma scores_lookup (k : Z) (i : nat) :
  (0 ≤ k < 5)%Z →
  aiAPI.scores !! i = Some (array_get aiAPI.scores k) ↔ k = Z.of_nat i.
Proof.
  intros Hk.
  assert (Hcases : k = 0%Z ∨ k = 1%Z ∨ k = 2%Z ∨ k = 3%Z ∨ k = 4%Z) by lia.
  destruct Hcases as [->|[->|[->|[->| ->]]]];
    destruct i as [|[|[|[|[|i]]]]]; split; intros Heq;
    first [reflexivity | discriminate Heq | lia].
Qed.

Lemma scores_member (k : Z) :
  (0 ≤ k < 5)%Z →
  array_get aiAPI.scores k ∈ [VInt 75; VInt 80; VInt 85; VInt 90; VInt 95].
Proof.
  intros Hk.
  assert (Hcases : k = 0%Z ∨ k = 1%Z ∨ k = 2%Z ∨ k = 3%Z ∨ k = 4%Z) by lia.
  destruct Hcases as [->|[->|[->|[->| ->]]]];
    change (array_get aiAPI.scores _) with (VInt 75) ||
    change (array_get aiAPI.scores _) with (VInt 80) ||
    change (array_get aiAPI.scores _) with (VInt 85) ||
    change (array_get aiAPI.scores _) with (VInt 90) ||
    change (array_get aiAPI.scores _) with (VInt 95);
    rewrite !elem_of_cons; tauto.
Qed.

Lemma count_succ (sel : N → bool) (n : N) :
  count sel (N.succ n)
  = if sel n then N.succ (count sel n) else count sel n.
Proof.
  unfold count. rewrite N.recursion_succ; [done..|].
  by intros ? ? -> ? ? ->.
Qed.

(** Tests of which each number passes exactly one share the numbers below
    [n] among them. *)
Lemma count_partition (s0 s1 s2 s3 s4 s5 : N → bool) (n : N) :
  (∀ k, (N.b2n (s0 k) + N.b2n (s1 k) + N.b2n (s2 k) + N.b2n (s3 k)
         + N.b2n (s4 k) + N.b2n (s5 k) = 1)%N) →
  (count s0 n + count s1 n + count s2 n + count s3 n + count s4 n
   + count s5 n = n)%N.
Proof.
  intros Hone. induction n as [|n IH] using N.peano_ind; [done|].
  rewrite !count_succ. specialize (Hone n).
  destruct (s0 n), (s1 n), (s2 n), (s3 n), (s4 n), (s5 n);
    simpl in Hone; lia.
Qed.

Lemma draws_total (bits : N) :
  (draws_selecting bits 0 + draws_selecting bits 1 + draws_selecting bits 2
   + draws_selecting bits 3 + draws_selecting bits 4 + draws_missing bits
   = 2 ^ bits)%N.
Proof.
  unfold draws_selecting, draws_missing. apply count_partition.
  intros k. generalize (score_index (outcome bits k)). intros z.
  destruct (Z.eqb_spec z 0), (Z.eqb_spec z 1), (Z.eqb_spec z 2),
    (Z.eqb_spec z 3), (Z.eqb_spec z 4), (Z.leb_spec 0 z), (Z.leb_spec z 4);
    simpl; lia.
Qed.

(** C8, as stated, fails.  The product is rounded before the floor, so the
    members are not selected on the exact fifths of the range: the
    binary64 number nearest to 0.6 lies below 3/5 and yet gives 90, the
    fourth member.  And the probabilities are not equal: of a random
    source with 2^53 (or 2^52) equally likely outcomes, the numbers of
    outcomes that select the five members, none being left without a
    member, cannot all be the same. *)
Lemma safety_score_not_equiprobable :
  (binary64_below_2_53 nearest_to_0_6 = true
   ∧ (0 <= nearest_to_0_6 < 3 # 5)%Q
   ∧ ∃ v w2,
       aiAPI.getSafetyScore (answering NetworkError nearest_to_0_6)
         (fresh None) = (Normal v, w2)
       ∧ get v "safetyScore" = VInt 90)
  ∧ ¬ (draws_missing 53 = 0%N
       ∧ ∃ c, ∀ i, (0 ≤ i ≤ 4)%Z → draws_selecting 53 i = c)
  ∧ ¬ (draws_missing 52 = 0%N
       ∧ ∃ c, ∀ i, (0 ≤ i ≤ 4)%Z → draws_selecting 52 i = c).
Proof.
  split; [|split].
  - split; [by vm_compute|]. split; [by vm_compute|].
    eexists _, _. split; [reflexivity|]. by vm_compute.
  - intros [Hnone [c Hc]].
    pose proof (draws_total 53) as Hsum.
    rewrite Hnone, !Hc in Hsum by lia.
    change (2 ^ 53)%N with 9007199254740992%N in Hsum. lia.
  - intros [Hnone [c Hc]].
    pose proof (draws_total 52) as Hsum.
    rewrite Hnone, !Hc in Hsum by lia.
    change (2 ^ 52)%N with 4503599627370496%N in Hsum. lia.
Qed.

(** C8, amended.  When the live call fails and [Math.random()] yields a
    binary64 number [r] with [0 <= r < 1], the [safetyScore] returned is
    one of 75, 80, 85, 90, 95; the [i]-th of them is the one returned
    whenever [i <= 5 r <= i + 1 - 2^-50], and only if
    [i - 2^-51 <= 5 r < i + 1]: the five members are selected on the
    fifths of the range up to the rounding of the product. *)
Theorem safety_score_fallback env w e w1 :
  aiAPI.getSafetyScore_call env w = (Throw e, w1) →
  let r := entropy env (random_draws w) in
  binary64_below_2_53 r = true →
  (0 <= r < 1)%Q →
  ∃ v w2, aiAPI.getSafetyScore env w = (Normal v, w2)
    ∧ get v "safetyScore" ∈ [VInt 75; VInt 80; VInt 85; VInt 90; VInt 95]
    ∧ ∀ i : nat,
        ((inject_Z (Z.of_nat i) <= 5 * r
          ∧ 5 * r <= inject_Z (Z.of_nat i) + 1 - (1 # 2 ^ 50))%Q →
         aiAPI.scores !! i = Some (get v "safetyScore"))
        ∧ (aiAPI.scores !! i = Some (get v "safetyScore") →
           (inject_Z (Z.of_nat i) - (1 # 2 ^ 51) <= 5 * r
            ∧ 5 * r < inject_Z (Z.of_nat i) + 1)%Q).
Proof.
  intros H r Hb Hr. enter_catch H.
  destruct (live_rejected_counters GetSafetyScore _ _ _ _ H) as [_ Hdraws].
  eexists _, _. split; [reflexivity|].
  change (get _ "safetyScore")
    with (array_get aiAPI.scores
            (score_index (entropy env (random_draws w1)))).
  rewrite Hdraws. fold r.
  destruct (score_index_scaled r Hb Hr)
    as (m & k & Hm & Hk & Hlt & Hreq & ->).
  destruct (scaled_index m k Hm Hk Hlt) as [Hrange Hchar].
  assert (HK : (0 < 2 ^ k)%Z) by (apply Z.pow_pos_nonneg; lia).
  assert (Hidx : (0 ≤ scaled m k / 2 ^ k < 5)%Z).
  { split; [apply Z.div_pos; lia|apply Z.div_lt_upper_bound; lia]. }
  split; [by apply scores_member|].
  intros i. rewrite scores_lookup by done.
  destruct (Hchar (Z.of_nat i) ltac:(lia)) as [Hif Honly].
  destruct (dyadic_order m (Z.to_pos (2 ^ k)) (Z.of_nat i))
    as (HA & HB & HC & HD).
  rewrite Z2Pos.id in HA, HB, HC, HD by done.
  split.
  - intros [H1 H2]. rewrite Hreq in H1, H2.
    apply Hif; [by apply HA|by apply HB].
  - intros Hi. destruct (Honly Hi) as [H1 H2]. rewrite Hreq.
    split; [by apply HC|by apply HD].
Qed.

Lemma safety_score_fallback_witness :
  let w := fresh None in
  let r := entropy offline (random_draws w) in
  aiAPI.getSafetyScore_call offline w
  = (Throw (mkError "ERR_NETWORK" None),
     after_sending (request_of offline GetSafetyScore) w)
  ∧ binary64_below_2_53 r = true
  ∧ (0 <= r < 1)%Q
  ∧ ∃ v w2, aiAPI.getSafetyScore offline w = (Normal v, w2)
      ∧ get v "safetyScore" ∈ [VInt 75; VInt 80; VInt 85; VInt 90; VInt 95]
      ∧ aiAPI.scores !! 2 = Some (get v "safetyScore").
Proof.
  intros w r.
  assert (H : aiAPI.getSafetyScore_call offline w
    = (Throw (mkError "ERR_NETWORK" None),
       after_sending (request_of offline GetSafetyScore) w))
    by (vm_compute; reflexivity).
  assert (Hb : binary64_below_2_53 r = true) by (vm_compute; reflexivity).
  assert (Hr : (0 <= r < 1)%Q)
    by (split; vm_compute; [discriminate|reflexivity]).
  assert (Hin : (inject_Z (Z.of_nat 2) <= 5 * r
                 ∧ 5 * r <= inject_Z (Z.of_nat 2) + 1 - (1 # 2 ^ 50))%Q)
    by (split; vm_compute; discriminate).
  split; [exact H|]. split; [exact Hb|]. split; [exact Hr|].
  destruct (safety_score_fallback offline w _ _ H Hb Hr)
    as (v & w2 & Hrun & Hmem & Hsel).
  exists v, w2. split; [exact Hrun|]. split; [exact Hmem|].
  exact (proj1 (Hsel 2) Hin).
Defined.

(** * Further properties of the access layer *)

(** ** Effects of an invocation on the world *)

(** Enters the [try] branch of a wrapper whose awaited call is fulfilled
    according to [H]. *)
Ltac enter_try H :=
  unfold authAPI.login, authAPI.register, authAPI.verifyOTP,
    userAPI.getProfile, userAPI.updateProfile, userAPI.uploadKYC,
    locationAPI.updateLocation, locationAPI.getLocationHistory,
    alertAPI.sendPanicAlert, alertAPI.getAlerts,
    blockchainAPI.issueDigitalID, blockchainAPI.getQRCode,
    aiAPI.getSafetyScore;
  rewrite (try_catch_fulfilled _ response_data _ _ _ _ _ H).

(** A wrapper never raises. *)
Lemma invoke_returns op env w : ∃ v, (invoke op env w).1 = Normal v.
Proof.
  destruct (live op env w) as [[r|e] w1] eqn:H;
    [destruct op; simpl in H |- *; enter_try H
    |destruct op; simpl in H |- *; enter_catch H];
    by eexists.
Qed.

(** The fallback of a wrapper touches neither the storage, nor the
    navigation, nor the network. *)
Lemma invoke_frame op env w :
  storage (invoke op env w).2 = storage (live op env w).2
  ∧ navigations (invoke op env w).2 = navigations (live op env w).2
  ∧ sent (invoke op env w).2 = sent (live op env w).2.
Proof.
  destruct (live op env w) as [[r|e] w1] eqn:H;
    [destruct op; simpl in H |- *; enter_try H
    |destruct op; simpl in H |- *; enter_catch H];
    done.
Qed.

Lemma live_world_unauthorized op env w :
  answered_unauthorized env w op →
  (live op env w).2 = after_logout (after_sending (outgoing env w op) w).
Proof.
  intros (r & Hnet & Hst). rewrite live_run, request_run. cbv zeta.
  fold (outgoing env w op). rewrite Hnet. simpl.
  unfold validateStatus, api.interceptors.response.unauthorized.
  rewrite Hst. simpl. by rewrite Hst.
Qed.

Lemma live_world_otherwise op env w :
  ¬ answered_unauthorized env w op →
  (live op env w).2 = after_sending (outgoing env w op) w.
Proof.
  intros Hno. rewrite live_run, request_run. cbv zeta.
  fold (outgoing env w op).
  destruct (network env (outgoing env w op)) as [| |r] eqn:Hnet; simpl;
    try done.
  destruct (validateStatus (status r)); simpl; [done|].
  unfold api.interceptors.response.unauthorized. simpl.
  destruct (Z.eqb_spec (status r) 401) as [Hst|]; [|done].
  destruct Hno. by exists r.
Qed.

Lemma one_request_per_invocation_aux op env w :
  sent (invoke op env w).2 = sent w ++ [outgoing env w op].
Proof.
  destruct (invoke_frame op env w) as (_ & _ & ->).
  rewrite live_run. apply sent_after_request.
Qed.

(** X1.  Whatever the outcome, an invocation hands exactly one request to
    the transport, the one the request interceptor produced: a failed
    call is never retried. *)
Theorem one_request_per_invocation op env w :
  sent (invoke op env w).2 = sent w ++ [outgoing env w op]
  ∧ length (sent (invoke op env w).2) = S (length (sent w)).
Proof.
  rewrite one_request_per_invocation_aux, length_app. simpl.
  split; [done|lia].
Qed.

(** X2.  When the network answers an operation with status 401, the caller
    still gets a value, not an error; meanwhile the token has been removed
    from the storage and one navigation to the login route has been
    made. *)
Theorem unauthorized_answer_behind_fallback op env w :
  answered_unauthorized env w op →
  ∃ v w2, invoke op env w = (Normal v, w2)
    ∧ storage w2 = delete "auth-token" (storage w)
    ∧ storage w2 !! "auth-token" = None
    ∧ navigations w2 = navigations w ++ ["/auth/login"].
Proof.
  intros H401.
  destruct (invoke_returns op env w) as [v Hv].
  destruct (invoke_frame op env w) as (Hst & Hnav & _).
  rewrite (live_world_unauthorized _ _ _ H401) in Hst, Hnav.
  exists v, (invoke op env w).2.
  split; [by rewrite <- Hv; destruct (invoke op env w)|].
  rewrite Hst, Hnav. simpl.
  split; [done|]. split; [apply lookup_delete_eq|done].
Qed.

Lemma unauthorized_answer_behind_fallback_witness :
  let env := replying 401 VNull in
  let w := fresh (Some "abc") in
  answered_unauthorized env w GetProfile
  ∧ ∃ v w2, invoke GetProfile env w = (Normal v, w2)
      ∧ storage w2 = delete "auth-token" (storage w)
      ∧ storage w2 !! "auth-token" = None
      ∧ navigations w2 = navigations w ++ ["/auth/login"].
Proof.
  intros env w.
  assert (H : answered_unauthorized env w GetProfile)
    by (by exists (mkResponse 401 VNull)).
  split; [exact H|].
  exact (unauthorized_answer_behind_fallback GetProfile env w H).
Defined.

(** X3.  Unless the network answers with status 401, an invocation leaves
    the storage and the navigation as they were, whether the call
    succeeded or fell back. *)
Theorem session_kept_unless_unauthorized op env w :
  ¬ answered_unauthorized env w op →
  storage (invoke op env w).2 = storage w
  ∧ navigations (invoke op env w).2 = navigations w.
Proof.
  intros Hno. destruct (invoke_frame op env w) as (-> & -> & _).
  by rewrite (live_world_otherwise _ _ _ Hno).
Qed.

Lemma session_kept_unless_unauthorized_witness :
  let env := replying 500 VNull in
  let w := fresh (Some "abc") in
  ¬ answered_unauthorized env w GetAlerts
  ∧ storage (invoke GetAlerts env w).2 = storage w
  ∧ navigations (invoke GetAlerts env w).2 = navigations w.
Proof.
  intros env w.
  assert (H : ¬ answered_unauthorized env w GetAlerts)
    by (intros (r & Hnet & Hst); injection Hnet as <-; discriminate Hst).
  split; [exact H|].
  exact (session_kept_unless_unauthorized GetAlerts env w H).
Defined.

(** X4.  Once an operation has been answered with status 401, the request
    of the operation invoked next carries no [Authorization] header,
    whatever token was stored before. *)
Theorem request_after_unauthorized_is_anonymous op1 op2 env w :
  answered_unauthorized env w op1 →
  ∃ cfg1 cfg2,
    sent ((invoke op1 ≫= λ _, invoke op2) env w).2 = sent w ++ [cfg1; cfg2]
    ∧ headers cfg2 !! "Authorization" = None.
Proof.
  intros H401.
  destruct (invoke_returns op1 env w) as [v Hv].
  destruct (invoke_frame op1 env w) as (Hst & _ & _).
  rewrite (live_world_unauthorized _ _ _ H401) in Hst.
  pose proof (one_request_per_invocation_aux op1 env w) as Hsent1.
  exists (outgoing env w op1), (outgoing env (invoke op1 env w).2 op2).
  unfold mbind, M_bind.
  destruct (invoke op1 env w) as [c w1]. simpl in Hv, Hst, Hsent1 |- *.
  subst c. split.
  - rewrite one_request_per_invocation_aux, Hsent1.
    by rewrite <- app_assoc.
  - unfold outgoing. rewrite Hst. simpl. rewrite lookup_delete_eq. simpl.
    apply request_of_unauthenticated.
Qed.

Lemma request_after_unauthorized_is_anonymous_witness :
  let env := replying 401 VNull in
  let w := fresh (Some "abc") in
  answered_unauthorized env w GetProfile
  ∧ ∃ cfg1 cfg2,
      sent ((invoke GetProfile ≫= λ _, invoke GetAlerts) env w).2
      = sent w ++ [cfg1; cfg2]
      ∧ headers cfg2 !! "Authorization" = None.
Proof.
  intros env w.
  assert (H : answered_unauthorized env w GetProfile)
    by (by exists (mkResponse 401 VNull)).
  split; [exact H|].
  exact (request_after_unauthorized_is_anonymous GetProfile GetAlerts env w H).
Defined.

(** ** The request interceptor and the request defaults *)

Lemma request_interceptor_frame_aux config token :
  timeout (with_token token config) = timeout config
  ∧ baseURL (with_token token config) = baseURL config
  ∧ ∀ k, k ≠ "Authorization" →
      headers (with_token token config) !! k = headers config !! k.
Proof.
  unfold with_token. destruct token as [t|]; [|done].
  destruct (String.eqb t ""); [done|]. simpl.
  repeat (split; [done|]).
  intros k Hk. by rewrite lookup_insert_ne.
Qed.

(** X5.  The request interceptor reads the storage without changing the
    world, and changes nothing of the request but its [Authorization]
    header: method, URL, base URL, time limit, body and every other header
    are those it was given. *)
Theorem request_interceptor_frame config env w :
  ∃ config',
    api.interceptors.request.onFulfilled config env w = (Normal config', w)
    ∧ method config' = method config
    ∧ url config' = url config
    ∧ baseURL config' = baseURL config
    ∧ timeout config' = timeout config
    ∧ data config' = data config
    ∧ ∀ k, k ≠ "Authorization" → headers config' !! k = headers config !! k.
Proof.
  eexists. split; [apply request_onFulfilled_run|].
  unfold with_token.
  destruct (storage w !! "auth-token") as [t|]; [|done].
  destruct (String.eqb t ""); [done|]. simpl.
  repeat (split; [done|]).
  intros k Hk. by rewrite lookup_insert_ne.
Qed.

(** X6.  Running the request interceptor a second time on its own result
    changes nothing: a header it has attached is replaced by an equal
    one. *)
Theorem request_interceptor_idempotent config env w :
  (api.interceptors.request.onFulfilled config
     ≫= api.interceptors.request.onFulfilled) env w
  = api.interceptors.request.onFulfilled config env w.
Proof.
  unfold mbind, M_bind. rewrite !request_onFulfilled_run.
  f_equal. f_equal. unfold with_token.
  destruct (storage w !! "auth-token") as [t|]; [|done].
  destruct (String.eqb t ""); [done|]. simpl.
  by rewrite insert_insert_eq.
Qed.

Lemma API_BASE_URL_nonempty env : API_BASE_URL env ≠ "".
Proof.
  unfold API_BASE_URL.
  destruct (NEXT_PUBLIC_API_BASE_URL env) as [s|]; [|done].
  by destruct (String.eqb_spec s "").
Qed.

(** X7.  The request that an invocation sends has the time limit 10000 and
    the base URL [API_BASE_URL] followed by "/api/v1", where
    [API_BASE_URL] is never empty: an unset or empty environment variable
    gives "http://localhost:3001".  Its [Content-Type] is
    "application/json", except for [uploadKYC], whose own
    "multipart/form-data" replaces the default. *)
Theorem request_defaults_applied op env w :
  let cfg := outgoing env w op in
  timeout cfg = 10000%Z
  ∧ baseURL cfg = API_BASE_URL env +:+ "/api/v1"
  ∧ API_BASE_URL env ≠ ""
  ∧ (NEXT_PUBLIC_API_BASE_URL env = None
     ∨ NEXT_PUBLIC_API_BASE_URL env = Some "" →
     API_BASE_URL env = "http://localhost:3001")
  ∧ headers cfg !! "Content-Type"
    = Some (match op with
            | UploadKYC _ => "multipart/form-data"
            | _ => "application/json"
            end).
Proof.
  cbv zeta. unfold outgoing.
  destruct (request_interceptor_frame_aux (request_of env op)
              (storage w !! "auth-token"))
    as (-> & -> & Hh).
  rewrite Hh by done.
  split; [by destruct op|]. split; [by destruct op|].
  split; [apply API_BASE_URL_nonempty|].
  split; [|by destruct op].
  unfold API_BASE_URL. by intros [-> | ->].
Qed.

Lemma request_interceptor_frame_witness :
  let config := api.defaults offline in
  let w := fresh (Some "abc") in
  "Content-Type" ≠ "Authorization"
  ∧ ∃ config',
      api.interceptors.request.onFulfilled config offline w
      = (Normal config', w)
      ∧ headers config' !! "Content-Type" = Some "application/json".
Proof.
  intros config w.
  assert (H : "Content-Type" ≠ "Authorization") by discriminate.
  split; [exact H|].
  destruct (request_interceptor_frame config offline w)
    as (config' & Hrun & _ & _ & _ & _ & _ & Hh).
  exists config'. split; [exact Hrun|].
  rewrite (Hh "Content-Type" H). reflexivity.
Defined.

Lemma request_defaults_applied_witness :
  let env := configured (Some "") in
  NEXT_PUBLIC_API_BASE_URL env = Some ""
  ∧ API_BASE_URL env = "http://localhost:3001".
Proof.
  intros env.
  assert (H : NEXT_PUBLIC_API_BASE_URL env = Some "") by reflexivity.
  split; [exact H|].
  exact (proj1 (proj2 (proj2 (proj2
           (request_defaults_applied GetProfile env (fresh None)))))
           (or_intror H)).
Defined.

(** ** What the fallback values depend on *)

Lemma Date_now_run env w :
  Date.now env w
  = (Normal (clock env (clock_reads w)),
     mkWorld (storage w) (navigations w) (sent w) (S (clock_reads w))
             (random_draws w)).
Proof. done. Qed.

(** X8.  When the live call fails, login succeeds whatever the password:
    two logins with the same email and different passwords, in the same
    world, return the same value, whose user carries the email given. *)
Theorem login_fallback_ignores_password email p1 p2 env w e1 e2 w1 w2 :
  authAPI.login_call email p1 env w = (Throw e1, w1) →
  authAPI.login_call email p2 env w = (Throw e2, w2) →
  ∃ v, (authAPI.login email p1 env w).1 = Normal v
       ∧ (authAPI.login email p2 env w).1 = Normal v
       ∧ get (get v "user") "email" = VStr email.
Proof.
  intros H1 H2.
  destruct (live_rejected_counters (Login email p1) _ _ _ _ H1) as [Hc1 _].
  destruct (live_rejected_counters (Login email p2) _ _ _ _ H2) as [Hc2 _].
  unfold authAPI.login.
  rewrite (try_catch_rejected _ _ _ _ _ _ _ H1),
          (try_catch_rejected _ _ _ _ _ _ _ H2).
  unfold mbind, M_bind. rewrite !Date_now_run, Hc1, Hc2.
  eexists. split; [reflexivity|]. split; [reflexivity|].
  by vm_compute.
Qed.

Lemma login_fallback_ignores_password_witness :
  let w := fresh None in
  let e := mkError "ERR_NETWORK" None in
  authAPI.login_call "bob@example.com" "right" offline w
  = (Throw e, after_sending
                (request_of offline (Login "bob@example.com" "right")) w)
  ∧ authAPI.login_call "bob@example.com" "wrong" offline w
    = (Throw e, after_sending
                  (request_of offline (Login "bob@example.com" "wrong")) w)
  ∧ ∃ v, (authAPI.login "bob@example.com" "right" offline w).1 = Normal v
         ∧ (authAPI.login "bob@example.com" "wrong" offline w).1 = Normal v
         ∧ get (get v "user") "email" = VStr "bob@example.com".
Proof.
  intros w e.
  assert (H1 : authAPI.login_call "bob@example.com" "right" offline w
    = (Throw e, after_sending
                  (request_of offline (Login "bob@example.com" "right")) w))
    by (vm_compute; reflexivity).
  assert (H2 : authAPI.login_call "bob@example.com" "wrong" offline w
    = (Throw e, after_sending
                  (request_of offline (Login "bob@example.com" "wrong")) w))
    by (vm_compute; reflexivity).
  split; [exact H1|]. split; [exact H2|].
  exact (login_fallback_ignores_password _ _ _ _ _ _ _ _ _ H1 H2).
Defined.

Lemma append_inj_l (p x y : string) : p +:+ x = p +:+ y → x = y.
Proof.
  induction p as [|c p IH]; [done|].
  rewrite !append_cons. intros [= H]. by apply IH.
Qed.

Lemma minted_eq_iff (p : string) (a b : Z) :
  VStr (p +:+ Number_toString a) = VStr (p +:+ Number_toString b) ↔ a = b.
Proof.
  split; [|by intros ->].
  intros [= H]. apply append_inj_l in H.
  by apply (inj pretty) in H.
Qed.

Lemma issueDigitalID_rejected env w e w1 :
  blockchainAPI.issueDigitalID_call env w = (Throw e, w1) →
  blockchainAPI.issueDigitalID env w
  = (Normal (object [
       "qrCode" ::= VStr blockchainAPI.mock_qrCode;
       "digitalId" ::=
         VStr ("DTID-" +:+ Number_toString (clock env (clock_reads w))) ]),
     mkWorld (storage w1) (navigations w1) (sent w1) (S (clock_reads w))
             (random_draws w1)).
Proof.
  intros H.
  destruct (live_rejected_counters IssueDigitalID _ _ _ _ H) as [Hc _].
  simpl in Hc. enter_catch H.
  unfold mbind, M_bind. by rewrite Date_now_run, Hc.
Qed.

(** X9.  When the live calls fail, two digital identities issued one after
    the other are "DTID-" followed by the two clock readings: they are the
    same identifier exactly when the clock shows the same millisecond at
    both readings. *)
Theorem successive_digital_ids_collide_iff env w e1 w1 e2 w2 :
  blockchainAPI.issueDigitalID_call env w = (Throw e1, w1) →
  blockchainAPI.issueDigitalID_call env (blockchainAPI.issueDigitalID env w).2
  = (Throw e2, w2) →
  ∃ v1 v2,
    (blockchainAPI.issueDigitalID env w).1 = Normal v1
    ∧ (blockchainAPI.issueDigitalID env
         (blockchainAPI.issueDigitalID env w).2).1 = Normal v2
    ∧ get v1 "digitalId"
      = VStr ("DTID-" +:+ Number_toString (clock env (clock_reads w)))
    ∧ get v2 "digitalId"
      = VStr ("DTID-" +:+ Number_toString (clock env (S (clock_reads w))))
    ∧ (get v1 "digitalId" = get v2 "digitalId"
       ↔ clock env (clock_reads w) = clock env (S (clock_reads w))).
Proof.
  intros H1 H2.
  rewrite (issueDigitalID_rejected _ _ _ _ H1) in H2 |- *.
  cbn [fst snd] in H2 |- *.
  rewrite (issueDigitalID_rejected _ _ _ _ H2). cbn [fst snd clock_reads].
  eexists _, _. split; [reflexivity|]. split; [reflexivity|].
  unfold object. cbn [foldl define]. rewrite !get_field_eq.
  split; [done|]. split; [done|]. apply minted_eq_iff.
Qed.

Lemma successive_digital_ids_collide_iff_witness :
  let w := fresh None in
  let e := mkError "ERR_NETWORK" None in
  let w' := (blockchainAPI.issueDigitalID offline w).2 in
  blockchainAPI.issueDigitalID_call offline w
  = (Throw e, after_sending (request_of offline IssueDigitalID) w)
  ∧ blockchainAPI.issueDigitalID_call offline w'
    = (Throw e, after_sending (request_of offline IssueDigitalID) w')
  ∧ ∃ v1 v2,
      (blockchainAPI.issueDigitalID offline w).1 = Normal v1
      ∧ (blockchainAPI.issueDigitalID offline w').1 = Normal v2
      ∧ get v1 "digitalId" = VStr "DTID-1700000000000"
      ∧ get v2 "digitalId" = VStr "DTID-1700000000001".
Proof.
  intros w e w'.
  assert (H1 : blockchainAPI.issueDigitalID_call offline w
    = (Throw e, after_sending (request_of offline IssueDigitalID) w))
    by (vm_compute; reflexivity).
  assert (H2 : blockchainAPI.issueDigitalID_call offline w'
    = (Throw e, after_sending (request_of offline IssueDigitalID) w'))
    by (vm_compute; reflexivity).
  split; [exact H1|]. split; [exact H2|].
  destruct (successive_digital_ids_collide_iff offline w _ _ _ _ H1 H2)
    as (v1 & v2 & Hv1 & Hv2 & Hid1 & Hid2 & _).
  exists v1, v2. split; [exact Hv1|]. split; [exact Hv2|].
  split; [exact Hid1|exact Hid2].
Defined.

Lemma live_counters op env w :
  clock_reads (live op env w).2 = clock_reads w
  ∧ random_draws (live op env w).2 = random_draws w.
Proof.
  rewrite live_run, request_run. cbv zeta.
  destruct (settle _) as [r|e]; [done|].
  by destruct (api.interceptors.response.unauthorized e).
Qed.

(** X10.  When the live call fails, the user that registration synthesises
    keeps every field of the supplied object other than [role]; a supplied
    [id] therefore replaces the generated one, which is "new-user-"
    followed by the clock reading and appears only when none is supplied;
    and the user has no field beyond the supplied ones, [id] and
    [role]. *)
Theorem register_fallback_keeps_supplied_fields
    (m : gmap string value) env w e w1 :
  authAPI.register_call (VObj m) env w = (Throw e, w1) →
  ∃ v w2, authAPI.register (VObj m) env w = (Normal v, w2)
    ∧ (∀ k x, k ≠ "role" → m !! k = Some x → get (get v "user") k = x)
    ∧ (m !! "id" = None →
       get (get v "user") "id"
       = VStr ("new-user-" +:+ Number_toString (clock env (clock_reads w))))
    ∧ (∀ k, k ≠ "role" → k ≠ "id" → m !! k = None →
         get (get v "user") k = VUndefined).
Proof.
  intros H.
  destruct (live_rejected_counters (Register (VObj m)) _ _ _ _ H) as [Hc _].
  simpl in Hc. enter_catch H.
  unfold mbind, M_bind. rewrite !Date_now_run. cbn [clock_reads].
  rewrite Hc.
  eexists _, _. split; [reflexivity|].
  set (gid := VStr ("new-user-" +:+ _)).
  change (get (object _) "user") with
    (object ["id" ::= gid; Spread (VObj m); "role" ::= VStr "tourist"]).
  unfold object. cbn [foldl define own_enumerable get].
  split; [|split].
  - intros k x Hk Hx.
    by rewrite lookup_insert_ne, (lookup_union_Some_l _ _ _ _ Hx).
  - intros Hid.
    rewrite lookup_insert_ne by done.
    by rewrite lookup_union_r, lookup_insert_eq.
  - intros k Hk1 Hk2 Hnone.
    rewrite lookup_insert_ne by done.
    by rewrite lookup_union_r, lookup_insert_ne.
Qed.

Lemma register_fallback_keeps_supplied_fields_witness :
  let m : gmap string value :=
    {[ "id" := VStr "chosen"; "email" := VStr "bob@example.com" ]} in
  let w := fresh None in
  authAPI.register_call (VObj m) offline w
  = (Throw (mkError "ERR_NETWORK" None),
     after_sending (request_of offline (Register (VObj m))) w)
  ∧ m !! "id" = Some (VStr "chosen")
  ∧ ∃ v w2, authAPI.register (VObj m) offline w = (Normal v, w2)
      ∧ get (get v "user") "id" = VStr "chosen".
Proof.
  intros m w.
  assert (H : authAPI.register_call (VObj m) offline w
    = (Throw (mkError "ERR_NETWORK" None),
       after_sending (request_of offline (Register (VObj m))) w))
    by (vm_compute; reflexivity).
  assert (Hid : m !! "id" = Some (VStr "chosen")) by (vm_compute; reflexivity).
  assert (Hne : "id" ≠ "role") by discriminate.
  split; [exact H|]. split; [exact Hid|].
  destruct (register_fallback_keeps_supplied_fields m offline w _ _ H)
    as (v & w2 & Hrun & Hkeep & _).
  exists v, w2. split; [exact Hrun|].
  exact (Hkeep "id" (VStr "chosen") Hne Hid).
Defined.

(** ** Synthesised collections *)

(** X11.  When the live call fails, and provided the clock does not run
    backwards, alert history returns exactly two alerts, "alert-1" then
    "alert-2", the first strictly older than the second, and the second
    at least one hour older than every reading of the clock from the one
    that produced it on. *)
Theorem alerts_fallback_ordered env w e w1 :
  alertAPI.getAlerts_call env w = (Throw e, w1) →
  (∀ i j, i ≤ j → (clock env i ≤ clock env j)%Z) →
  ∃ v w2 a1 a2 t1 t2,
    alertAPI.getAlerts env w = (Normal v, w2)
    ∧ get v "alerts" = VArr [a1; a2]
    ∧ get a1 "id" = VStr "alert-1" ∧ get a2 "id" = VStr "alert-2"
    ∧ get a1 "timestamp" = VInt t1 ∧ get a2 "timestamp" = VInt t2
    ∧ (t1 < t2)%Z
    ∧ ∀ n, clock_reads w2 ≤ S n → (t2 + 3600000 ≤ clock env n)%Z.
Proof.
  intros H Hmono. enter_catch H.
  eexists _, _, _, _, _, _.
  split; [reflexivity|]. split; [reflexivity|].
  split; [reflexivity|]. split; [reflexivity|].
  split; [reflexivity|]. split; [reflexivity|].
  simpl. split.
  - pose proof (Hmono (clock_reads w1) (S (clock_reads w1))). lia.
  - intros n Hn.
    pose proof (Hmono (S (clock_reads w1)) n). lia.
Qed.

Lemma alerts_fallback_ordered_witness :
  let w := fresh None in
  alertAPI.getAlerts_call offline w
  = (Throw (mkError "ERR_NETWORK" None),
     after_sending (request_of offline GetAlerts) w)
  ∧ (∀ i j, i ≤ j → (clock offline i ≤ clock offline j)%Z)
  ∧ ∃ v w2 a1 a2 t1 t2,
      alertAPI.getAlerts offline w = (Normal v, w2)
      ∧ get v "alerts" = VArr [a1; a2]
      ∧ get a1 "id" = VStr "alert-1" ∧ get a2 "id" = VStr "alert-2"
      ∧ get a1 "timestamp" = VInt t1 ∧ get a2 "timestamp" = VInt t2
      ∧ (t1 < t2)%Z
      ∧ ∀ n, clock_reads w2 ≤ S n → (t2 + 3600000 ≤ clock offline n)%Z.
Proof.
  intros w.
  assert (H : alertAPI.getAlerts_call offline w
    = (Throw (mkError "ERR_NETWORK" None),
       after_sending (request_of offline GetAlerts) w))
    by (vm_compute; reflexivity).
  assert (Hmono : ∀ i j, i ≤ j → (clock offline i ≤ clock offline j)%Z)
    by (intros i j Hij; simpl; lia).
  split; [exact H|]. split; [exact Hmono|].
  exact (alerts_fallback_ordered offline w _ _ H Hmono).
Defined.

(** X12.  When the live call fails, the three timestamps of location
    history are the three successive clock readings less one hour, less
    half an hour, and as read: consecutive entries are thirty minutes
    apart plus whatever time passed between the two readings. *)
Theorem location_history_spacing env w e w1 :
  locationAPI.getLocationHistory_call env w = (Throw e, w1) →
  let n := clock_reads w in
  ∃ v w2 l1 l2 l3 t1 t2 t3,
    locationAPI.getLocationHistory env w = (Normal v, w2)
    ∧ get v "locations" = VArr [l1; l2; l3]
    ∧ get l1 "timestamp" = VInt t1
    ∧ get l2 "timestamp" = VInt t2
    ∧ get l3 "timestamp" = VInt t3
    ∧ t3 = clock env (S (S n))
    ∧ (t3 - t2 = 1800000 + (clock env (S (S n)) - clock env (S n)))%Z
    ∧ (t2 - t1 = 1800000 + (clock env (S n) - clock env n))%Z
    ∧ clock_reads w2 = S (S (S n)).
Proof.
  intros H n.
  destruct (live_rejected_counters GetLocationHistory _ _ _ _ H) as [Hc _].
  simpl in Hc. enter_catch H.
  eexists _, _, _, _, _, _, _, _.
  split; [reflexivity|]. split; [reflexivity|].
  split; [reflexivity|]. split; [reflexivity|]. split; [reflexivity|].
  simpl. rewrite Hc. fold n. repeat split; lia.
Qed.

Lemma location_history_spacing_witness :
  let w := fresh None in
  locationAPI.getLocationHistory_call offline w
  = (Throw (mkError "ERR_NETWORK" None),
     after_sending (request_of offline GetLocationHistory) w)
  ∧ ∃ v w2 l1 l2 l3,
      locationAPI.getLocationHistory offline w = (Normal v, w2)
      ∧ get v "locations" = VArr [l1; l2; l3]
      ∧ get l1 "timestamp" = VInt 1699996400000
      ∧ get l2 "timestamp" = VInt 1699998200001
      ∧ get l3 "timestamp" = VInt 1700000000002.
Proof.
  intros w.
  assert (H : locationAPI.getLocationHistory_call offline w
    = (Throw (mkError "ERR_NETWORK" None),
       after_sending (request_of offline GetLocationHistory) w))
    by (vm_compute; reflexivity).
  split; [exact H|].
  destruct (location_history_spacing offline w _ _ H)
    as (v & w2 & l1 & l2 & l3 & t1 & t2 & t3 & Hrun & Hv & H1 & H2 & H3
        & Ht3 & Ht2 & Ht1 & _).
  exists v, w2, l1, l2, l3. split; [exact Hrun|]. split; [exact Hv|].
  assert (E3 : t3 = 1700000000002%Z) by (rewrite Ht3; reflexivity).
  assert (E2 : t2 = 1699998200001%Z)
    by (rewrite E3 in Ht2; simpl in Ht2; lia).
  assert (E1 : t1 = 1699996400000%Z)
    by (rewrite E2 in Ht1; simpl in Ht1; lia).
  rewrite H1, H2, H3, E1, E2, E3. repeat split; reflexivity.
Defined.

(** ** What the fallback consumes and what it reveals *)

(** X13.  No operation other than [getSafetyScore] ever draws a random
    number, and that one draws exactly one, and only when its live call
    fails. *)
Theorem randomness_only_for_safety_score op env w :
  random_draws (invoke op env w).2
  = random_draws w
    + match op, (live op env w).1 with
      | GetSafetyScore, Throw _ => 1
      | _, _ => 0
      end.
Proof.
  destruct (live_counters op env w) as [_ Hr].
  destruct (live op env w) as [[r|e] w1] eqn:H; simpl in Hr |- *;
    [destruct op; simpl in H |- *; enter_try H
    |destruct op; simpl in H |- *; enter_catch H];
    rewrite ?H;
    unfold Math.random, Date.now, mbind, M_bind, ask, read, update,
      mret, M_ret;
    cbn [fst snd random_draws]; lia.
Qed.

(** X14.  The value a fallback returns tells nothing about the failure:
    for one operation with the same arguments, two failed invocations that
    see the same clock readings and the same random number return the
    same value, whatever the two errors, stored tokens and networks
    are. *)
Theorem fallback_value_ignores_failure op env1 env2 w1 w2 e1 e2 w1' w2' :
  live op env1 w1 = (Throw e1, w1') →
  live op env2 w2 = (Throw e2, w2') →
  (∀ n, clock env1 (n + clock_reads w1) = clock env2 (n + clock_reads w2)) →
  entropy env1 (random_draws w1) = entropy env2 (random_draws w2) →
  (invoke op env1 w1).1 = (invoke op env2 w2).1.
Proof.
  intros H1 H2 Hclock Hentropy.
  destruct (live_rejected_counters _ _ _ _ _ H1) as [Hc1 Hr1].
  destruct (live_rejected_counters _ _ _ _ _ H2) as [Hc2 Hr2].
  pose proof (Hclock 0) as Hk0.
  pose proof (Hclock 1) as Hk1.
  pose proof (Hclock 2) as Hk2.
  simpl in Hk0, Hk1, Hk2.
  destruct op; simpl in H1, H2 |- *;
    enter_catch H1; rewrite (try_catch_rejected _ _ _ _ _ _ _ H2);
    unfold Math.random, mbind, M_bind, ask, read, update, mret, M_ret;
    rewrite ?Date_now_run; cbn [fst snd clock_reads random_draws];
    rewrite ?Hc1, ?Hc2, ?Hr1, ?Hr2, ?Hk0, ?Hk1, ?Hk2, ?Hentropy;
    reflexivity.
Qed.

Lemma fallback_value_ignores_failure_witness :
  let op := SendPanicAlert (object ["kind" ::= VStr "sos"]) in
  let env1 := offline in
  let env2 := replying 401 VNull in
  let w1 := fresh None in
  let w2 := fresh (Some "abc") in
  (∃ e w', live op env1 w1 = (Throw e, w'))
  ∧ (∃ e w', live op env2 w2 = (Throw e, w'))
  ∧ (invoke op env1 w1).1 = (invoke op env2 w2).1.
Proof.
  intros op env1 env2 w1 w2.
  assert (H1 : live op env1 w1
    = (Throw (mkError "ERR_NETWORK" None),
       after_sending (outgoing env1 w1 op) w1))
    by (vm_compute; reflexivity).
  assert (H2 : live op env2 w2
    = (Throw (mkError "ERR_BAD_REQUEST" (Some (mkResponse 401 VNull))),
       after_logout (after_sending (outgoing env2 w2 op) w2)))
    by (vm_compute; reflexivity).
  assert (Hclock : ∀ n, clock env1 (n + clock_reads w1)
                        = clock env2 (n + clock_reads w2))
    by (intros n; reflexivity).
  assert (Hentropy : entropy env1 (random_draws w1)
                     = entropy env2 (random_draws w2)) by reflexivity.
  split; [by eexists _, _|]. split; [by eexists _, _|].
  exact (fallback_value_ignores_failure op env1 env2 w1 w2 _ _ _ _
           H1 H2 Hclock Hentropy).
Defined.

(** ** Sequences of invocations *)

Lemma invoke_step op env w :
  ∃ v w', invoke op env w = (Normal v, w')
    ∧ sent w' = sent w ++ [outgoing env w op]
    ∧ ((storage w' = storage w ∧ navigations w' = navigations w)
       ∨ (storage w' = delete "auth-token" (storage w)
          ∧ navigations w' = navigations w ++ ["/auth/login"])).
Proof.
  destruct (invoke_returns op env w) as [v Hv].
  pose proof (one_request_per_invocation_aux op env w) as Hsent.
  destruct (invoke_frame op env w) as (Hst & Hnav & _).
  exists v, (invoke op env w).2.
  split; [by rewrite <- Hv; destruct (invoke op env w)|].
  split; [done|].
  rewrite Hst, Hnav, live_run, request_run. cbv zeta.
  destruct (settle _) as [r|e]; [by left|].
  destruct (api.interceptors.response.unauthorized e); [by right|by left].
Qed.

Lemma run_all_cons op ops env w v w' :
  invoke op env w = (Normal v, w') →
  run_all (op :: ops) env w
  = match run_all ops env w' with
    | (Normal vs, w'') => (Normal (v :: vs), w'')
    | (Throw e, w'') => (Throw e, w'')
    end.
Proof.
  intros H. cbn [run_all]. unfold mbind at 1, M_bind at 1. rewrite H.
  unfold mbind, M_bind. by destruct (run_all ops env w') as [[vs|e] w''].
Qed.

(** X15.  A sequence of invocations never raises: it returns one value per
    operation and has handed exactly one request per operation to the
    transport. *)
Theorem sequence_sends_one_request_each ops env w :
  ∃ vs w', run_all ops env w = (Normal vs, w')
    ∧ length vs = length ops
    ∧ length (sent w') = length (sent w) + length ops.
Proof.
  revert w. induction ops as [|op ops IH]; intros w.
  - exists [], w. repeat split; simpl; lia.
  - destruct (invoke_step op env w) as (v & w1 & Hrun & Hsent & _).
    destruct (IH w1) as (vs & w2 & Hrest & Hlen & Hsent2).
    exists (v :: vs), w2. rewrite (run_all_cons _ _ _ _ _ _ Hrun), Hrest.
    split; [done|]. rewrite Hsent2, Hsent, length_app. simpl.
    split; lia.
Qed.

(** X16.  A sequence of invocations never writes to the storage: every
    entry other than 'auth-token' is as it was, and 'auth-token' is either
    as it was or absent; in particular no operation, login and
    registration included, ever stores a token. *)
Theorem sequence_only_removes_token ops env w :
  let w' := (run_all ops env w).2 in
  (∀ k, k ≠ "auth-token" → storage w' !! k = storage w !! k)
  ∧ (storage w' !! "auth-token" = storage w !! "auth-token"
     ∨ storage w' !! "auth-token" = None).
Proof.
  cbv zeta. revert w. induction ops as [|op ops IH]; intros w.
  - split; [done|by left].
  - destruct (invoke_step op env w) as (v & w1 & Hrun & _ & Hcase).
    rewrite (run_all_cons _ _ _ _ _ _ Hrun).
    destruct (IH w1) as [Hother Htoken].
    assert (Hsnd : (match run_all ops env w1 with
                    | (Normal vs, w'') => (Normal (v :: vs), w'')
                    | (Throw e, w'') => (Throw e, w'')
                    end).2 = (run_all ops env w1).2)
      by (by destruct (run_all ops env w1) as [[?|?] ?]).
    rewrite Hsnd.
    destruct Hcase as [[Hst _]|[Hst _]]; rewrite Hst in Hother, Htoken.
    + done.
    + split.
      * intros k Hk. rewrite Hother by done. by rewrite lookup_delete_ne.
      * right. rewrite lookup_delete_eq in Htoken. by destruct Htoken.
Qed.

Lemma sequence_only_removes_token_witness :
  let ops := [Login "bob@example.com" "pw"; GetProfile] in
  let env := replying 401 VNull in
  let w := fresh (Some "abc") in
  "other" ≠ "auth-token"
  ∧ storage (run_all ops env w).2 !! "other" = storage w !! "other".
Proof.
  intros ops env w.
  assert (H : "other" ≠ "auth-token") by discriminate.
  split; [exact H|].
  exact (proj1 (sequence_only_removes_token ops env w) "other" H).
Defined.

(** X17.  The only navigations a sequence of invocations makes are to the
    login route, at most one per operation. *)
Theorem sequence_navigates_only_to_login ops env w :
  ∃ n, n ≤ length ops
    ∧ navigations (run_all ops env w).2
      = navigations w ++ replicate n "/auth/login".
Proof.
  revert w. induction ops as [|op ops IH]; intros w.
  - exists 0. split; [done|]. simpl. by rewrite app_nil_r.
  - destruct (invoke_step op env w) as (v & w1 & Hrun & _ & Hcase).
    rewrite (run_all_cons _ _ _ _ _ _ Hrun).
    destruct (IH w1) as (n & Hn & Hnav).
    assert (Hsnd : (match run_all ops env w1 with
                    | (Normal vs, w'') => (Normal (v :: vs), w'')
                    | (Throw e, w'') => (Throw e, w'')
                    end).2 = (run_all ops env w1).2)
      by (by destruct (run_all ops env w1) as [[?|?] ?]).
    rewrite Hsnd, Hnav.
    destruct Hcase as [[_ ->]|[_ ->]].
    + exists n. split; [simpl; lia|done].
    + exists (S n). split; [simpl; lia|]. by rewrite <- app_assoc.
Qed.

(** X18.  A session that starts without a token stays anonymous: none of
    the requests a sequence of invocations sends carries an
    [Authorization] header. *)
Theorem anonymous_session_stays_anonymous ops env w :
  storage w !! "auth-token" = None →
  ∃ cfgs, sent (run_all ops env w).2 = sent w ++ cfgs
    ∧ length cfgs = length ops
    ∧ Forall (λ cfg, headers cfg !! "Authorization" = None) cfgs.
Proof.
  revert w. induction ops as [|op ops IH]; intros w Hnone.
  - exists []. split; [simpl; by rewrite app_nil_r|]. by split.
  - destruct (invoke_step op env w) as (v & w1 & Hrun & Hsent & Hcase).
    rewrite (run_all_cons _ _ _ _ _ _ Hrun).
    assert (Hnone1 : storage w1 !! "auth-token" = None).
    { destruct Hcase as [[-> _]|[-> _]]; [done|apply lookup_delete_eq]. }
    destruct (IH w1 Hnone1) as (cfgs & Hsent2 & Hlen & Hall).
    assert (Hsnd : (match run_all ops env w1 with
                    | (Normal vs, w'') => (Normal (v :: vs), w'')
                    | (Throw e, w'') => (Throw e, w'')
                    end).2 = (run_all ops env w1).2)
      by (by destruct (run_all ops env w1) as [[?|?] ?]).
    rewrite Hsnd, Hsent2, Hsent.
    exists (outgoing env w op :: cfgs).
    split; [by rewrite <- app_assoc|]. split; [simpl; lia|].
    constructor; [|done].
    unfold outgoing. rewrite Hnone. apply request_of_unauthenticated.
Qed.

Lemma anonymous_session_stays_anonymous_witness :
  let ops := [Login "bob@example.com" "pw"; GetProfile] in
  let w := fresh None in
  storage w !! "auth-token" = None
  ∧ ∃ cfgs, sent (run_all ops offline w).2 = sent w ++ cfgs
      ∧ length cfgs = length ops
      ∧ Forall (λ cfg, headers cfg !! "Authorization" = None) cfgs.
Proof.
  intros ops w.
  assert (H : storage w !! "auth-token" = None) by reflexivity.
  split; [exact H|].
  exact (anonymous_session_stays_anonymous ops offline w H).
Defined.

(** * The connectivity monitor *)

Lemma fresh_listener_absent type n rs (ls : list (string * Callback)) :
  Forall (λ l : string * Callback, ident l.2 < n) ls →
  existsb (window.same_listener type (mkCallback n rs)) ls = false.
Proof.
  induction 1 as [|l ls Hl _ IH]; [done|]. simpl. rewrite IH.
  unfold window.same_listener. simpl.
  destruct (Nat.eqb_spec (ident l.2) n); [lia|].
  by rewrite andb_false_r.
Qed.

Lemma remove_first_fresh type n rs (ls tl : list (string * Callback)) :
  Forall (λ l : string * Callback, ident l.2 < n) ls →
  window.remove_first type (mkCallback n rs) (ls ++ (type, mkCallback n rs) :: tl)
  = ls ++ tl.
Proof.
  induction 1 as [|l ls Hl _ IH]; simpl.
  - unfold window.same_listener. simpl.
    by rewrite String.eqb_refl, Nat.eqb_refl.
  - unfold window.same_listener at 1. simpl.
    destruct (Nat.eqb_spec (ident l.2) n); [lia|].
    rewrite andb_false_r. by rewrite IH.
Qed.

Lemma effect_run p :
  listeners_allocated p →
  App.effect p
  = ((mkCallback (allocated p) [true], mkCallback (S (allocated p)) [false]),
     mkPage (listeners p
             ++ [("online", mkCallback (allocated p) [true]);
                 ("offline", mkCallback (S (allocated p)) [false])])
            (S (S (allocated p))) (status_calls p)).
Proof.
  intros Hwf. unfold App.effect, App.arrow, window.addEventListener.
  cbn [listeners allocated status_calls].
  rewrite (fresh_listener_absent _ _ _ _ Hwf).
  cbn [listeners allocated status_calls].
  rewrite existsb_app, (fresh_listener_absent "offline" (S (allocated p))).
  - simpl. by rewrite <- app_assoc.
  - eapply Forall_impl; [exact Hwf|]. simpl. lia.
Qed.

(** X19.  While the effect is in place, an 'online' event makes exactly
    one more call than before, [setOnlineStatus(true)], after those of the
    listeners registered earlier; an 'offline' event one more,
    [setOnlineStatus(false)]; an event of any other type none. *)
Theorem monitor_reports_connectivity p :
  listeners_allocated p →
  let mounted := (App.effect p).2 in
  status_calls (window.dispatchEvent "online" mounted)
  = status_calls (window.dispatchEvent "online" p) ++ [true]
  ∧ status_calls (window.dispatchEvent "offline" mounted)
    = status_calls (window.dispatchEvent "offline" p) ++ [false]
  ∧ ∀ type, type ≠ "online" → type ≠ "offline" →
      status_calls (window.dispatchEvent type mounted)
      = status_calls (window.dispatchEvent type p).
Proof.
  intros Hwf. cbv zeta. rewrite (effect_run _ Hwf).
  unfold window.dispatchEvent. cbn [snd listeners status_calls].
  rewrite !flat_map_app. cbn [flat_map fst snd reports].
  split; [|split].
  - simpl. by rewrite app_assoc.
  - simpl. by rewrite app_assoc.
  - intros type H1 H2.
    rewrite flat_map_app. cbn [flat_map fst snd reports].
    destruct (String.eqb_spec "online" type); [congruence|].
    destruct (String.eqb_spec "offline" type); [congruence|].
    simpl. by rewrite app_nil_r.
Qed.

Lemma monitor_reports_connectivity_witness :
  listeners_allocated sample_page
  ∧ let mounted := (App.effect sample_page).2 in
    status_calls (window.dispatchEvent "online" mounted) = [true]
    ∧ status_calls (window.dispatchEvent "offline" mounted) = [false].
Proof.
  assert (H : listeners_allocated sample_page)
    by (repeat constructor).
  split; [exact H|].
  destruct (monitor_reports_connectivity sample_page H) as (Hon & Hoff & _).
  split; [exact Hon|exact Hoff].
Defined.

(** X20.  Running the function that the effect returned removes the two
    listeners the effect registered and no other: the listeners of
    [window] are those from before the effect, so that events are
    reported as if the component had never been there. *)
Theorem cleanup_undoes_effect p :
  listeners_allocated p →
  let unmounted := App.cleanup (App.effect p).1 (App.effect p).2 in
  listeners unmounted = listeners p
  ∧ status_calls unmounted = status_calls p
  ∧ ∀ type, status_calls (window.dispatchEvent type unmounted)
            = status_calls (window.dispatchEvent type p).
Proof.
  intros Hwf. cbv zeta. rewrite (effect_run _ Hwf).
  unfold App.cleanup, window.removeEventListener.
  cbn [fst snd listeners allocated status_calls].
  rewrite (remove_first_fresh "online" _ _ _ _ Hwf).
  assert (Hwf' : Forall (λ l : string * Callback,
                           ident l.2 < S (allocated p)) (listeners p))
    by (eapply Forall_impl; [exact Hwf|]; simpl; lia).
  rewrite (remove_first_fresh "offline" _ _ _ [] Hwf'), app_nil_r.
  split; [done|]. split; [done|].
  intros type. unfold window.dispatchEvent. by simpl.
Qed.

Lemma cleanup_undoes_effect_witness :
  listeners_allocated sample_page
  ∧ listeners (App.cleanup (App.effect sample_page).1
                 (App.effect sample_page).2)
    = listeners sample_page.
Proof.
  assert (H : listeners_allocated sample_page)
    by (repeat constructor).
  split; [exact H|].
  exact (proj1 (cleanup_undoes_effect sample_page H)).
Defined.
